(** * Real-Hourly-Wages-Change: the two plotting scripts, embedded and verified

    The repository holds two linear scripts,
    [OECD_hourly_wages_barchart.py] and [OECD_hourly_wages_map.py].  Each one
    loads the table [oecd_hw_change], reshapes it with pandas and hands the
    result to matplotlib / geopandas.  This file embeds the data-massaging
    steps of both scripts as functions on lists of rows and proves the
    properties stated about them.

    Conventions of the embedding.
    - A data frame is the list of its rows, in row order.  Index labels are
      not modelled: the scripts only use them to write a column back onto the
      rows it was read from.
    - A numeric cell is an [option Q]: [None] is SQL NULL, which pandas holds
      as NaN; [Some q] is a finite number.  Every finite double is a rational
      and the order of doubles is the order of those rationals, so comparisons
      are exact; arithmetic is taken without rounding.  MySQL stores neither
      infinities nor NaN, so no other float reaches the scripts from the
      database.
    - Country names are strings that are present (no NULL names).
    - shapely's geometry operations are an interface ([Shapely.Ops]) with the
      point-set laws they obey on valid input ([Shapely.Laws]); the scripts
      are embedded over any implementation of it. *)

From Stdlib Require Import List String Ascii Bool Arith ZArith QArith Qround Lqa Lia.
From Stdlib Require Import Sorting.Permutation Sorting.Sorted.
From Stdlib Require DecimalString DecimalNat.
Import ListNotations.

Local Open Scope string_scope.
Local Open Scope Q_scope.

(* ------------------------------------------------------------------------ *)
(** ** Numbers *)

Module Num.

(** [a < b] on rationals, as a boolean. *)
Definition Qlt_bool (a b : Q) : bool := negb (Qle_bool b a).

(** An entry of a [bins] array: a finite number or one of [±np.inf]. *)
Inductive edge : Type :=
| NegInf
| Fin (q : Q)
| PosInf.

(** [b < x] for an array entry [b] and a finite [x]. *)
Definition edge_lt (b : edge) (x : Q) : bool :=
  match b with
  | NegInf => true
  | Fin q => Qlt_bool q x
  | PosInf => false
  end.

(** [x == b] for an array entry [b] and a finite [x]. *)
Definition edge_eq (b : edge) (x : Q) : bool :=
  match b with
  | Fin q => Qeq_bool x q
  | NegInf | PosInf => false
  end.

(** [min] / [max] of a column, skipping NaN as [Series.min] and
    [Series.max] do; [None] when the column has no number at all. *)
Definition opt_min (a : option Q) (x : option Q) : option Q :=
  match a, x with
  | None, _ => x
  | _, None => a
  | Some m, Some v => if Qlt_bool v m then Some v else Some m
  end.

Definition opt_max (a : option Q) (x : option Q) : option Q :=
  match a, x with
  | None, _ => x
  | _, None => a
  | Some m, Some v => if Qlt_bool m v then Some v else Some m
  end.

Definition series_min (s : list (option Q)) : option Q := fold_left opt_min s None.
Definition series_max (s : list (option Q)) : option Q := fold_left opt_max s None.

End Num.

(* ------------------------------------------------------------------------ *)
(** ** The pandas operations the scripts call *)

Module Pandas.
Import Num.

(** [numpy.searchsorted(a, x, side='left')] on an ascending array: the
    number of leading entries strictly below [x]. *)
Fixpoint searchsorted_left (a : list edge) (x : Q) : nat :=
  match a with
  | [] => 0
  | b :: a' => if edge_lt b x then S (searchsorted_left a' x) else 0
  end.

(** [pd.cut(x, bins, labels=labels, right=True, include_lowest=True)] on one
    cell.  pandas computes [ids = bins.searchsorted(x, side='left')], sets
    [ids] to 1 where [x == bins[0]], masks the cell when it is NaN or when
    [ids] is 0 or [len(bins)], and otherwise takes [labels[ids - 1]]. *)
Definition cut (bins : list edge) (labels : list string) (x : option Q)
  : option string :=
  match x with
  | None => None
  | Some v =>
      let ids := searchsorted_left bins v in
      let ids := match bins with
                 | b0 :: _ => if edge_eq b0 v then 1%nat else ids
                 | [] => ids
                 end in
      if (ids =? List.length bins)%nat || (ids =? 0)%nat then None
      else nth_error labels (ids - 1)
  end.

(** [Series.isin(values)] on one cell. *)
Definition isin (s : string) (values : list string) : bool :=
  existsb (String.eqb s) values.

(** [DataFrame.replace(to_replace, value)] on one string cell: a cell equal
    to [to_replace] becomes [value].  A numeric cell never equals a string
    and is left alone, so the frame-wide call only concerns string
    columns. *)
Definition replace_cell (to_replace value s : string) : string :=
  if String.eqb s to_replace then value else s.

(** The order [sort_values] puts keys in: ascending, NaN after every
    number ([na_position='last']). *)
Definition key_le (a b : option Q) : bool :=
  match a, b with
  | Some x, Some y => Qle_bool x y
  | _, None => true
  | None, Some _ => false
  end.

Definition notna (a : option Q) : bool :=
  match a with Some _ => true | None => false end.

Section Sort.
Context {row : Type} (by_ : row -> option Q).

Fixpoint insert (r : row) (l : list row) : list row :=
  match l with
  | [] => [r]
  | x :: l' => if key_le (by_ r) (by_ x) then r :: l else x :: insert r l'
  end.

Fixpoint argsort (l : list row) : list row :=
  match l with
  | [] => []
  | r :: l' => insert r (argsort l')
  end.

(** [DataFrame.sort_values(by)] with the defaults [ascending=True],
    [na_position='last'].  As pandas' [nargsort] does, the rows with a
    NaN key are set aside, the others are sorted, and the NaN rows are
    appended.  The default [kind='quicksort'] fixes no order among equal
    keys; an insertion sort stands for it here, and nothing below depends
    on how ties come out. *)
Definition sort_values (df : list row) : list row :=
  argsort (filter (fun r => notna (by_ r)) df)
    ++ filter (fun r => negb (notna (by_ r))) df.

(** Row [a] may stand before row [b] in the sorted frame. *)
Definition ascending (a b : row) : Prop := key_le (by_ a) (by_ b) = true.
End Sort.

End Pandas.

(* ------------------------------------------------------------------------ *)
(** ** The database *)

Module Db.

(** A row of [oecd_hw_change], with the columns the scripts read. *)
Record row : Type := mkRow {
  country : string;
  hw_2007 : option Q;
  hw_2024 : option Q;
  pct_change_2007_2024 : option Q
}.

(** The database behind the engine: what each SQL text returns. *)
Definition engine : Type := string -> list row.

(** [pd.read_sql(query, engine)] *)
Definition read_sql (query : string) (e : engine) : list row := e query.

End Db.

(** What a call that can raise returns. *)
Inductive result (A : Type) : Type :=
| Ok (a : A)
| ValueError (msg : string).
Arguments Ok {A} a.
Arguments ValueError {A} msg.

Fixpoint mapM {A B : Type} (f : A -> result B) (l : list A) : result (list B) :=
match l with
| [] => Ok []
| a :: l' =>
    match f a with
    | ValueError m => ValueError m
    | Ok b => match mapM f l' with
              | ValueError m => ValueError m
              | Ok bs => Ok (b :: bs)
              end
    end
end.

(* ------------------------------------------------------------------------ *)
(** ** OECD_hourly_wages_barchart.py *)

Module Barchart.
Import Num Pandas Db.

Definition query : string := "SELECT * FROM oecd_hw_change".

Definition load (e : engine) : list row := read_sql query e.

Definition not_in_usd : list string := ["Bulgaria"; "Romania"; "Croatia"].

(** Lines 63-68: drop the rows of [not_in_usd], then
    [df.replace("OECD", "OECD average")]. *)
Definition exclude (df : list row) : list row :=
  filter (fun r => negb (isin (country r) not_in_usd)) df.

Definition rename (r : row) : row :=
  {| country := replace_cell "OECD" "OECD average" (country r);
     hw_2007 := hw_2007 r;
     hw_2024 := hw_2024 r;
     pct_change_2007_2024 := pct_change_2007_2024 r |}.

Definition prepare (df : list row) : list row := map rename (exclude df).

Definition df_2007_sorted (df : list row) : list row := sort_values hw_2007 df.
Definition df_2024_sorted (df : list row) : list row := sort_values hw_2024 df.

(** [matplotlib.colors.Normalize(vmin, vmax)] applied to one value:
    [result.fill(0)] when [vmin == vmax], an error when [vmin > vmax], and
    [(value - vmin) / (vmax - vmin)] otherwise, which is NaN when any of
    the three is. *)
Definition Normalize (vmin vmax : option Q) (value : option Q)
  : result (option Q) :=
  match vmin, vmax with
  | Some lo, Some hi =>
      if Qeq_bool lo hi then Ok (Some 0)
      else if Qlt_bool hi lo then
        ValueError "minvalue must be less than or equal to maxvalue"
      else Ok (option_map (fun v => (v - lo) / (hi - lo)) value)
  | _, _ => Ok None
  end.

(** [Normalize] without its error branch, which the minimum and maximum of
    one column never reach. *)
Definition normalized (vmin vmax value : option Q) : option Q :=
  match vmin, vmax with
  | Some lo, Some hi =>
      if Qeq_bool lo hi then Some 0
      else option_map (fun v => (v - lo) / (hi - lo)) value
  | _, _ => None
  end.

Definition norm_2007 (df : list row) : option Q -> result (option Q) :=
  Normalize (series_min (map hw_2007 (df_2007_sorted df)))
            (series_max (map hw_2007 (df_2007_sorted df))).

Definition norm_2024 (df : list row) : option Q -> result (option Q) :=
  Normalize (series_min (map hw_2024 (df_2024_sorted df)))
            (series_max (map hw_2024 (df_2024_sorted df))).

Section Chart.
(** The colormap [plt.cm.YlGnBu], from a normalized value to a colour. *)
Context {color : Type} (cmap : option Q -> color).

(** One bar of [ax.barh(y, width, color=...)]. *)
Record bar : Type := mkBar {
  bar_y : string;
  bar_width : option Q;
  bar_color : color
}.

Definition barh (y : list string) (width : list (option Q))
           (colors : list color) : list bar :=
  map (fun t => mkBar (fst (fst t)) (snd (fst t)) (snd t))
      (combine (combine y width) colors).

(** Lines 95-97. *)
Definition bars1 (df : list row) : result (list bar) :=
  match mapM (norm_2007 df) (map hw_2007 (df_2007_sorted df)) with
  | ValueError m => ValueError m
  | Ok ns =>
      Ok (barh (map country (df_2007_sorted df))
               (map hw_2007 (df_2007_sorted df))
               (map cmap ns))
  end.

(** Lines 107-108. *)
Definition bars2 (df : list row) : result (list bar) :=
  match mapM (norm_2024 df) (map hw_2024 (df_2024_sorted df)) with
  | ValueError m => ValueError m
  | Ok ns =>
      Ok (barh (map country (df_2024_sorted df))
               (map hw_2024 (df_2024_sorted df))
               (map cmap ns))
  end.

(** The shape lines 95-97 and 107-108 share, over the column [by_] that is
    sorted, normalized and drawn. *)
Definition bars_by (by_ : row -> option Q) (df : list row) : result (list bar) :=
  let sorted := sort_values by_ df in
  let norm := Normalize (series_min (map by_ sorted)) (series_max (map by_ sorted)) in
  match mapM norm (map by_ sorted) with
  | ValueError m => ValueError m
  | Ok ns => Ok (barh (map country sorted) (map by_ sorted) (map cmap ns))
  end.
End Chart.

(** The script from the query result on: both bar lists. *)
Definition chart {color : Type} (cmap : option Q -> color) (e : engine)
  : result (list (bar (color:=color)) * list (bar (color:=color))) :=
  let df := prepare (load e) in
  match bars1 cmap df, bars2 cmap df with
  | Ok b1, Ok b2 => Ok (b1, b2)
  | ValueError m, _ | _, ValueError m => ValueError m
  end.

(** *** Lines 100-118: the wage printed beside each bar *)

(** Rounding to the nearest integer, ties to the even one. *)
Definition round_half_even (t : Q) : Z :=
  let f := Qfloor t in
  let r := t - inject_Z f in
  if Qlt_bool r (1 # 2) then f
  else if Qlt_bool (1 # 2) r then (f + 1)%Z
  else if Z.even f then f else (f + 1)%Z.

(** The number of tenths [format(x, '.1f')] prints: Python rounds the exact
    value of the float to one decimal, ties to even. *)
Definition tenths (x : Q) : Z := round_half_even (x * 10).

Definition digits (n : nat) : string :=
  DecimalString.NilZero.string_of_uint (Nat.to_uint n).

(** [f'{width:.1f}'] *)
Definition format_1f (width : option Q) : string :=
  match width with
  | None => "nan"
  | Some x =>
      let n := Z.abs (tenths x) in
      (if Qlt_bool x 0 then "-" else "")
        ++ digits (Z.to_nat (n / 10)) ++ "." ++ digits (Z.to_nat (n mod 10))
  end.

(** The number a printed text denotes: an optional minus sign, digits, a
    point and one more digit, read in base ten.  Any other text denotes
    none. *)
Fixpoint split_point (s : string) : option (string * string) :=
  match s with
  | EmptyString => None
  | String c s' =>
      if Ascii.eqb c "." then Some ("", s')
      else match split_point s' with
           | Some (a, b) => Some (String c a, b)
           | None => None
           end
  end.

Definition read_nat (s : string) : option nat :=
  option_map Nat.of_uint (DecimalString.NilZero.uint_of_string s).

Definition unsigned_value (s : string) : option Q :=
  match split_point s with
  | Some (ip, fp) =>
      match read_nat ip, read_nat fp with
      | Some i, Some f =>
          if (String.length fp =? 1)%nat
          then Some (inject_Z (Z.of_nat i) + inject_Z (Z.of_nat f) / 10)
          else None
      | _, _ => None
      end
  | None => None
  end.

Definition decimal_value (s : string) : option Q :=
  match s with
  | EmptyString => None
  | String c s' =>
      if Ascii.eqb c "-" then option_map Qopp (unsigned_value s')
      else unsigned_value s
  end.

(** The distinct strings of a list, in order of first appearance. *)
Fixpoint first_seen (ys : list string) : list string :=
  match ys with
  | [] => []
  | y :: ys' => y :: filter (fun z => negb (z =? y)) (first_seen ys')
  end.

Fixpoint index (l : list string) (y : string) : nat :=
  match l with
  | [] => 0
  | y0 :: l' => if y =? y0 then 0%nat else S (index l' y)
  end.

(** The tick a string gets on a category axis: its rank among the distinct
    strings plotted, in order of first appearance. *)
Definition position (ys : list string) (y : string) : nat :=
  index (first_seen ys) y.

(** The default [height] of [barh]; bars are centred on their tick. *)
Definition bar_height : Q := 0.8.

Section Labels.
Context {color : Type}.

(** [bar.get_y()] for a bar of the list [bs] drawn by one [barh] call. *)
Definition get_y (bs : list (bar (color:=color))) (b : bar (color:=color)) : Q :=
  inject_Z (Z.of_nat (position (map bar_y bs) (bar_y b))) - bar_height / 2.

(** One [ax.text(x, y, s, ha=...)] call. *)
Record text : Type := mkText {
  text_x : option Q;
  text_y : Q;
  text_s : string;
  text_ha : string
}.

(** The loops of lines 101-104 ([ha='left']) and 115-118 ([ha='right']). *)
Definition bar_texts (ha : string) (bs : list (bar (color:=color))) : list text :=
  map (fun b =>
         mkText (option_map (fun width => width + 0.5) (bar_width b))
                (get_y bs b + bar_height / 2)
                (format_1f (bar_width b))
                ha)
      bs.
End Labels.

End Barchart.

(* ------------------------------------------------------------------------ *)
(** ** shapely *)

Module Shapely.

(** The operations the map script calls, over a type [geom] of geometries.
    [buffer] is taken with round joins, which [join_style=1] asks for and
    which is also the default.  [transform src dst] is the reprojection
    behind [GeoSeries.to_crs].  [covers g p] says that the point [p] lies in
    [g]. *)
Class Ops (geom point crs : Type) : Type := {
  union : geom -> geom -> geom;
  difference : geom -> geom -> geom;
  buffer : geom -> Q -> geom;
  unary_union : list geom -> geom;
  get_parts : geom -> list geom;
  area : geom -> Q;
  transform : crs -> crs -> geom -> geom;
  covers : geom -> point -> Prop
}.

(** What the operations mean as sets of points, on valid geometries: the
    Boolean operations are those of sets, and [buffer(0)], which only cleans
    the topology, keeps the points.  Nothing is said of a buffer by another
    distance: GEOS draws a round join as a run of chords, so such a buffer
    is neither the exact dilation nor the exact erosion of the geometry. *)
Class Laws {geom point crs : Type} (O : Ops geom point crs) : Prop := {
  covers_union : forall a b p,
    covers (union a b) p <-> covers a p \/ covers b p;
  covers_difference : forall a b p,
    covers (difference a b) p <-> covers a p /\ ~ covers b p;
  covers_unary_union : forall l p,
    covers (unary_union l) p <-> exists g, In g l /\ covers g p;
  covers_buffer_zero : forall g p,
    covers (buffer g 0) p <-> covers g p
}.

End Shapely.

(** A model of [Shapely.Ops]: a geometry is a finite set of cells of the
    integer line, given as a list.  The parts of an ascending list are its
    maximal runs of neighbouring cells, and a cell has area 1/20. *)
Module Line.

Definition mem (x : Z) (g : list Z) : bool := existsb (Z.eqb x) g.

Definition ball (x n : Z) : list Z :=
  map (fun k => (x - n + Z.of_nat k)%Z) (seq 0 (Z.to_nat (2 * n + 1))).

Definition dilate (g : list Z) (n : Z) : list Z := flat_map (fun x => ball x n) g.

Definition erode (g : list Z) (n : Z) : list Z :=
  filter (fun x => forallb (fun y => mem y g) (ball x n)) g.

Definition buffer (g : list Z) (d : Q) : list Z :=
  if Qle_bool 0 d then dilate g (Qfloor d) else erode g (Qfloor (- d)).

Fixpoint runs (g : list Z) : list (list Z) :=
  match g with
  | [] => []
  | x :: g' =>
      match runs g' with
      | (y :: r) :: rs =>
          if (y =? x + 1)%Z then (x :: y :: r) :: rs else [x] :: (y :: r) :: rs
      | _ => [[x]]
      end
  end.

#[global] Instance ops : Shapely.Ops (list Z) Z unit := {|
  Shapely.union := fun a b => (a ++ b)%list;
  Shapely.difference := fun a b => filter (fun x => negb (mem x b)) a;
  Shapely.buffer := buffer;
  Shapely.unary_union := @List.concat Z;
  Shapely.get_parts := runs;
  Shapely.area := fun g => Z.of_nat (List.length g) # 20;
  Shapely.transform := fun _ _ g => g;
  Shapely.covers := fun g p => In p g
|}.

End Line.

(** A second model of [Shapely.Ops], in the plane with rational
    coordinates, that draws round joins the way GEOS does: as chords between
    vertices on the circle, sixteen to the quarter circle.

    A region is a rectangle with sides along the axes, an intersection of
    half-planes, or a union or difference of regions.  The buffer is exact
    where the Cyprus step of the example further down meets it: a rectangle
    buffered outward gets its four sides moved out by the distance and its
    corners rounded by chords; an intersection of half-planes buffered
    inward gets every half-plane moved in by the distance, which is its
    erosion by the disc; a union of regions that stay apart is buffered part
    by part.  Elsewhere (an intersection buffered outward, touching parts, a
    difference) buffering part by part only approximates.  Areas are given
    for rectangles only and a region is its own single part; the Cyprus step
    uses neither. *)
Module Plane.

Definition point : Type := (Q * Q)%type.

(** The half-plane [nx x + ny y <= off + rad * sqrt (nx^2 + ny^2)]: the
    side of a line with normal [(nx, ny)], moved outward by [rad]. *)
Record halfplane : Type := mkHalf { nx : Q; ny : Q; off : Q; rad : Q }.

(** Whether [p] lies in [h], decided on the squares. *)
Definition inside (p : point) (h : halfplane) : bool :=
  let t := nx h * fst p + ny h * snd p - off h in
  let n2 := nx h * nx h + ny h * ny h in
  if Qle_bool 0 (rad h)
  then Qle_bool t 0 || Qle_bool (t * t) (rad h * rad h * n2)
  else Qle_bool t 0 && Qle_bool (rad h * rad h * n2) (t * t).

Definition shift (d : Q) (h : halfplane) : halfplane :=
  mkHalf (nx h) (ny h) (off h) (rad h + d).

Inductive region : Type :=
| Box (x0 y0 x1 y1 : Q)
| Convex (hs : list halfplane)
| Join (a b : region)
| Minus (a b : region)
| Nothing.

Fixpoint coversb (g : region) (p : point) : bool :=
  match g with
  | Box x0 y0 x1 y1 =>
      Qle_bool x0 (fst p) && Qle_bool (fst p) x1
      && Qle_bool y0 (snd p) && Qle_bool (snd p) y1
  | Convex hs => forallb (inside p) hs
  | Join a b => coversb a p || coversb b p
  | Minus a b => coversb a p && negb (coversb b p)
  | Nothing => false
  end.

(** The point of the unit circle at the angle whose half has tangent [t]. *)
Definition on_circle (t : Q) : Q * Q :=
  ((1 - t * t) / (1 + t * t), 2 * t / (1 + t * t)).

(** The seventeen vertices of a quarter circle from [(1, 0)] to [(0, 1)]:
    the tangents are those of [k * pi / 64], to three decimals, so that the
    vertices lie on the circle exactly and sixteen chords join them. *)
Definition quarter : list (Q * Q) :=
  map on_circle
    [0; 0.049; 0.098; 0.148; 0.199; 0.25; 0.303; 0.358; 0.414; 0.473; 0.535;
     0.599; 0.668; 0.742; 0.821; 0.906; 1].

(** A quarter turn to the left. *)
Definition turn (u : Q * Q) : Q * Q := (- snd u, fst u).

(** The half-planes behind the chords of the arc of radius [d] around the
    corner [c] with the unit directions [us]: the chord from [c + d u] to
    [c + d u'] has the normal [u + u']. *)
Fixpoint chords (d : Q) (c : point) (us : list (Q * Q)) : list halfplane :=
  match us with
  | u :: us' =>
      match us' with
      | u' :: _ =>
          let sx := fst u + fst u' in
          let sy := snd u + snd u' in
          mkHalf sx sy
                 (sx * fst c + sy * snd c + d * (sx * sx + sy * sy) / 2) 0
            :: chords d c us'
      | [] => []
      end
  | [] => []
  end.

Definition sides (x0 y0 x1 y1 : Q) : list halfplane :=
  [mkHalf 1 0 x1 0; mkHalf 0 1 y1 0; mkHalf (- 1) 0 (- x0) 0;
   mkHalf 0 (- 1) (- y0) 0].

(** A rectangle buffered outward by [d], with round joins. *)
Definition rounded (d x0 y0 x1 y1 : Q) : list halfplane :=
  (map (shift d) (sides x0 y0 x1 y1)
     ++ chords d (x1, y1) quarter
     ++ chords d (x0, y1) (map turn quarter)
     ++ chords d (x0, y0) (map turn (map turn quarter))
     ++ chords d (x1, y0) (map turn (map turn (map turn quarter))))%list.

Fixpoint buffer (g : region) (d : Q) : region :=
  match g with
  | Box x0 y0 x1 y1 =>
      if Qeq_bool d 0 then g
      else if Qle_bool 0 d then Convex (rounded d x0 y0 x1 y1)
      else Convex (map (shift d) (sides x0 y0 x1 y1))
  | Convex hs => if Qeq_bool d 0 then g else Convex (map (shift d) hs)
  | Join a b => if Qeq_bool d 0 then g else Join (buffer a d) (buffer b d)
  | Minus a b =>
      if Qeq_bool d 0 then g else Minus (buffer a d) (buffer b (- d))
  | Nothing => Nothing
  end.

Definition area (g : region) : Q :=
  match g with
  | Box x0 y0 x1 y1 => (x1 - x0) * (y1 - y0)
  | _ => 0
  end.

#[global] Instance ops : Shapely.Ops region point unit := {|
  Shapely.union := Join;
  Shapely.difference := Minus;
  Shapely.buffer := buffer;
  Shapely.unary_union := fold_right Join Nothing;
  Shapely.get_parts := fun g => [g];
  Shapely.area := area;
  Shapely.transform := fun _ _ g => g;
  Shapely.covers := fun g p => coversb g p = true
|}.

End Plane.

(* ------------------------------------------------------------------------ *)
(** ** OECD_hourly_wages_map.py *)

(** The tables of the map script.  Each module is one table's row type, with
    the columns the script reads. *)

Module Layer.
(** A [GeoDataFrame] read from a shapefile: its CRS and its rows. *)
Record t (crs row : Type) : Type := mk { crs_of : crs; rows : list row }.
Arguments mk {crs row}.
Arguments crs_of {crs row}.
Arguments rows {crs row}.
End Layer.

Module World.
(** [ne_10m_admin_0_countries] *)
Record row (geom : Type) : Type :=
  mk { NAME : string; CONTINENT : string; geometry : geom }.
Arguments mk {geom}.
Arguments NAME {geom}.
Arguments CONTINENT {geom}.
Arguments geometry {geom}.
End World.

Module Disputed.
(** [ne_10m_admin_0_disputed_areas] *)
Record row (geom : Type) : Type := mk { NAME : string; geometry : geom }.
Arguments mk {geom}.
Arguments NAME {geom}.
Arguments geometry {geom}.
End Disputed.

Module Admin1.
(** [ne_10m_admin_1_states_provinces]; [name_en] may be missing. *)
Record row (geom : Type) : Type := mk { name_en : option string; geometry : geom }.
Arguments mk {geom}.
Arguments name_en {geom}.
Arguments geometry {geom}.
End Admin1.

Module Europe.
(** [europe[['NAME', 'geometry']]] *)
Record row (geom : Type) : Type := mk { NAME : string; geometry : geom }.
Arguments mk {geom}.
Arguments NAME {geom}.
Arguments geometry {geom}.
End Europe.

Module Mrg.
(** [df_mrg]: the columns of [df] on the left, those of [europe] on the
    right.  The left columns are NaN where no row of [df] matched. *)
Record row (geom : Type) : Type := mk {
  country : option string;
  pct_change_2007_2024 : option Q;
  NAME : string;
  geometry : geom
}.
Arguments mk {geom}.
Arguments country {geom}.
Arguments pct_change_2007_2024 {geom}.
Arguments NAME {geom}.
Arguments geometry {geom}.

(** [df_mrg.loc[mask, 'geometry'] = ...]: the rows of the mask get [f] of
    their geometry, the others stay. *)
Definition loc_geometry {geom : Type} (mask : row geom -> bool)
  (f : geom -> geom) (df : list (row geom)) : list (row geom) :=
  map (fun r => if mask r
                then mk (country r) (pct_change_2007_2024 r) (NAME r) (f (geometry r))
                else r) df.
End Mrg.

Module Map.
Import Num Pandas.

Definition query : string := "SELECT * FROM oecd_hw_change".

Definition load (e : Db.engine) : list Db.row := Db.read_sql query e.

(** [Series.str.contains(pat, case=False, na=False)], for a pattern of
    ASCII letters and text in UTF-8.  pandas compiles the pattern with
    [re.IGNORECASE] and searches every cell for it; a missing cell gives the
    [na] value, [False].  Under that flag a letter of the pattern stands for
    itself in either case and, on Unicode text, [i] also stands for U+0130
    and U+0131, [s] for U+017F and [k] for U+212A.  Regex operators in the
    pattern are not modelled: the script's pattern has none. *)
Definition lower (c : ascii) : ascii :=
  let n := nat_of_ascii c in
  if ((65 <=? n) && (n <=? 90))%nat then ascii_of_nat (n + 32) else c.

Definition upper (c : ascii) : ascii :=
  let n := nat_of_ascii c in
  if ((97 <=? n) && (n <=? 122))%nat then ascii_of_nat (n - 32) else c.

(** The texts a character of the pattern matches. *)
Definition spellings (c : ascii) : list string :=
  (String (lower c) "" :: String (upper c) ""
     :: (if Ascii.eqb (lower c) "i" then ["İ"; "ı"]
         else if Ascii.eqb (lower c) "s" then ["ſ"]
         else if Ascii.eqb (lower c) "k" then ["K"]
         else []))%list.

Fixpoint drop (n : nat) (s : string) : string :=
  match n, s with
  | S n', String _ s' => drop n' s'
  | _, _ => s
  end.

(** Whether the pattern matches at the start of [s]. *)
Fixpoint starts (pat s : string) : bool :=
  match pat with
  | EmptyString => true
  | String c pat' =>
      existsb (fun v => String.prefix v s
                        && starts pat' (drop (String.length v) s))
              (spellings c)
  end.

(** [re.search]: whether the pattern matches somewhere in [s]. *)
Fixpoint search (pat s : string) : bool :=
  starts pat s
  || match s with
     | EmptyString => false
     | String _ s' => search pat s'
     end.

Definition str_contains_nocase (pat : string) (cell : option string) : bool :=
  match cell with
  | None => false
  | Some s => search pat s
  end.

(** [x] spells the pattern: it is one matching text per character of the
    pattern, in order. *)
Fixpoint spells (pat x : string) : Prop :=
  match pat with
  | EmptyString => x = ""
  | String c pat' =>
      exists v x', In v (spellings c) /\ x = v ++ x' /\ spells pat' x'
  end.

Section Geo.
Context {geom point crs : Type} {shapely : Shapely.Ops geom point crs}.
Import Shapely.

(** *** Lines 72-80: Cyprus *)

Definition south_cy (world : Layer.t crs (World.row geom)) : list geom :=
  map World.geometry
      (filter (fun r => World.NAME r =? "Cyprus") (Layer.rows world)).

Definition north_cy (world : Layer.t crs (World.row geom))
  (disputed : Layer.t crs (Disputed.row geom)) : list geom :=
  map (transform (Layer.crs_of disputed) (Layer.crs_of world))
      (map Disputed.geometry
           (filter (fun r => Disputed.NAME r =? "N. Cyprus") (Layer.rows disputed))).

(** [full_cy] as first assigned, before the smoothing. *)
Definition full_cy_union (world : Layer.t crs (World.row geom))
  (disputed : Layer.t crs (Disputed.row geom)) : geom :=
  unary_union (south_cy world ++ north_cy world disputed)%list.

Definition closed (world : Layer.t crs (World.row geom))
  (disputed : Layer.t crs (Disputed.row geom)) : geom :=
  buffer (full_cy_union world disputed) 0.05.

(** [full_cy] as reassigned on line 79. *)
Definition full_cy (world : Layer.t crs (World.row geom))
  (disputed : Layer.t crs (Disputed.row geom)) : geom :=
  buffer (closed world disputed) (- 0.05).

(** [world] after line 80. *)
Definition unite_cyprus (world : Layer.t crs (World.row geom))
  (disputed : Layer.t crs (Disputed.row geom)) : Layer.t crs (World.row geom) :=
  Layer.mk (Layer.crs_of world)
    (map (fun r => if World.NAME r =? "Cyprus"
                   then World.mk (World.NAME r) (World.CONTINENT r)
                                 (full_cy world disputed)
                   else r)
         (Layer.rows world)).

(** *** Lines 82-117: Europe and the merge *)

Definition neighbours : list string :=
  ["Turkey"; "Georgia"; "Armenia"; "Azerbaijan"; "Cyprus"; "Kazakhstan"].

(** Lines 83-86 and 92. *)
Definition europe (world : Layer.t crs (World.row geom)) : list (Europe.row geom) :=
  map (fun r => Europe.mk (World.NAME r) (World.geometry r))
      (filter (fun r => (World.CONTINENT r =? "Europe")
                        || isin (World.NAME r) neighbours)
              (Layer.rows world)).

(** Line 89. *)
Definition drop_oecd (df : list Db.row) : list Db.row :=
  filter (fun r => negb (Db.country r =? "OECD")) df.

(** [pd.merge(df, europe, left_on='country', right_on='NAME', how='right')]
    after line 105 kept the two columns [country] and
    [pct_change_2007_2024] of [df]: the rows of [europe] in their order, each
    once per row of [df] with its name, or once with NaN on the left when
    there is none. *)
Definition merge (df : list Db.row) (europe : list (Europe.row geom))
  : list (Mrg.row geom) :=
  flat_map
    (fun e =>
       match filter (fun w => Db.country w =? Europe.NAME e) df with
       | [] => [Mrg.mk None None (Europe.NAME e) (Europe.geometry e)]
       | ws => map (fun w => Mrg.mk (Some (Db.country w))
                                    (Db.pct_change_2007_2024 w)
                                    (Europe.NAME e) (Europe.geometry e)) ws
       end)
    europe.

(** *** Lines 123-155: Crimea and the Russian islands *)

(** Lines 129-136; [dst] is [df_mrg.crs]. *)
Definition crimea (admin1 : Layer.t crs (Admin1.row geom)) (dst : crs) : geom :=
  let mask := fun r => str_contains_nocase "Crimea" (Admin1.name_en r) in
  let crimea_raw :=
    unary_union (map Admin1.geometry (filter mask (Layer.rows admin1))) in
  buffer (transform (Layer.crs_of admin1) dst crimea_raw) 0.

Definition is_named (n : string) (r : Mrg.row geom) : bool := Mrg.NAME r =? n.

(** Lines 139-142. *)
Definition russia_minus_crimea (crimea : geom) (df_mrg : list (Mrg.row geom))
  : list (Mrg.row geom) :=
  Mrg.loc_geometry (is_named "Russia")
                   (fun g => buffer (difference g crimea) 0) df_mrg.

(** Lines 144-147. *)
Definition ukraine_plus_crimea (crimea : geom) (df_mrg : list (Mrg.row geom))
  : list (Mrg.row geom) :=
  Mrg.loc_geometry (is_named "Ukraine") (fun g => union g crimea) df_mrg.

Definition move_crimea (crimea : geom) (df_mrg : list (Mrg.row geom))
  : list (Mrg.row geom) :=
  ukraine_plus_crimea crimea (russia_minus_crimea crimea df_mrg).

(** Line 152.  The literal is read as the decimal it writes. *)
Definition min_area : Q := 0.10.

(** Line 150: [explode] lists the parts of every selected geometry. *)
Definition russia_parts (df_mrg : list (Mrg.row geom)) : list geom :=
  flat_map get_parts (map Mrg.geometry (filter (is_named "Russia") df_mrg)).

Definition large_parts (df_mrg : list (Mrg.row geom)) : list geom :=
  filter (fun part => Qlt_bool min_area (area part)) (russia_parts df_mrg).

Definition clean_russia (df_mrg : list (Mrg.row geom)) : geom :=
  unary_union (large_parts df_mrg).

(** Line 155. *)
Definition drop_islands (df_mrg : list (Mrg.row geom)) : list (Mrg.row geom) :=
  Mrg.loc_geometry (is_named "Russia") (fun _ => clean_russia df_mrg) df_mrg.

(** [df_mrg] as it stands after line 117, from what the script loads. *)
Definition df_mrg_merged (df : list Db.row) (world : Layer.t crs (World.row geom))
  (disputed : Layer.t crs (Disputed.row geom)) : list (Mrg.row geom) :=
  merge (drop_oecd df) (europe (unite_cyprus world disputed)).

(** [df_mrg] as it stands after line 155. *)
Definition df_mrg (df : list Db.row) (world : Layer.t crs (World.row geom))
  (disputed : Layer.t crs (Disputed.row geom))
  (admin1 : Layer.t crs (Admin1.row geom)) : list (Mrg.row geom) :=
  drop_islands
    (move_crimea (crimea admin1 (Layer.crs_of world))
                 (df_mrg_merged df world disputed)).

End Geo.

(** [bins = [-np.inf, 0, 10, 20, 30, 40, 60, np.inf]] *)
Definition bins : list edge :=
  [NegInf; Fin 0; Fin 10; Fin 20; Fin 30; Fin 40; Fin 60; PosInf].

(** [labels]; the dash is U+2013, as in the script. *)
Definition labels : list string :=
  ["< 0%"; "0–10%"; "10–20%"; "20–30%"; "30–40%"; "40–60%"; "60%+"].

(** The cell of [df_mrg['change_bins']] computed from a cell of
    [df_mrg['pct_change_2007_2024']]. *)
Definition change_bins (pct : option Q) : option string :=
  cut bins labels pct.

(** Lines 175-179.  A colour is a named one or entry [i] of a colormap
    resampled to [lut] entries. *)
Inductive color : Type :=
| Named (name : string)
| Sampled (cmap : string) (lut i : nat).

Definition categories : list string := labels.
Definition pos_n : nat := List.length categories - 1.
Definition pos_colors : list color := map (Sampled "YlGnBu" pos_n) (seq 0 pos_n).
Definition colors : list color := Named "darksalmon" :: pos_colors.

(** How one polygon is filled and outlined. *)
Record patch : Type := mkPatch { facecolor : color; edgecolor : string }.

(** [missing_kwds] of line 199. *)
Definition missing_kwds : patch := mkPatch (Named "lightgrey") "white".

Fixpoint code (l : string) (cats : list string) : option nat :=
  match cats with
  | [] => None
  | c :: cats' => if l =? c then Some 0%nat else option_map S (code l cats')
  end.

(** Lines 191-201, for one row: a row without a bin is drawn with
    [missing_kwds]; a row with a bin takes the colour of the bin's category
    code from the listed colormap and the edge colour of the call. *)
Definition draw (bin : option string) : option patch :=
  match bin with
  | None => Some missing_kwds
  | Some l =>
      match code l categories with
      | Some i => option_map (fun c => mkPatch c "lightgrey") (nth_error colors i)
      | None => None
      end
  end.

(** What the map shows: every row of [df_mrg], with its name, its geometry
    and its patch. *)
Definition plot {geom : Type} (df_mrg : list (Mrg.row geom))
  : list (string * geom * option patch) :=
  map (fun r => (Mrg.NAME r, Mrg.geometry r,
                 draw (change_bins (Mrg.pct_change_2007_2024 r))))
      df_mrg.

(** *** Lines 98-102: the countries of [df] that the geometries lack *)

(** A Python set of strings, as a list without repetition. *)
Definition set_of (l : list string) : list string := nodup string_dec l.

Definition df_countries (df : list Db.row) : list string :=
  set_of (map Db.country df).

Definition natural_countries {geom : Type} (europe : list (Europe.row geom))
  : list string :=
  set_of (map Europe.NAME europe).

(** [df_countries - natural_countries] *)
Definition df_only {geom : Type} (df : list Db.row)
  (europe : list (Europe.row geom)) : list string :=
  filter (fun c => negb (isin c (natural_countries europe))) (df_countries df).

(** *** Lines 203-211: the legend *)

Definition legend_labels : list string := (rev labels ++ ["No data"])%list.
Definition legend_colors : list color := (rev colors ++ [Named "lightgrey"])%list.

(** [Patch(facecolor=..., edgecolor='black', label=...)] *)
Record handle : Type := mkHandle {
  handle_facecolor : color;
  handle_edgecolor : string;
  handle_label : string
}.

(** The comprehension of lines 208-211; [None] stands for the [IndexError]
    of an index beyond [legend_colors]. *)
Fixpoint handles_from (idx : list nat) : option (list handle) :=
  match idx with
  | [] => Some []
  | i :: idx' =>
      match nth_error legend_colors i, nth_error legend_labels i with
      | Some c, Some l =>
          option_map (cons (mkHandle c "black" l)) (handles_from idx')
      | _, _ => None
      end
  end.

Definition legend_handles : option (list handle) :=
  handles_from (seq 0 (List.length legend_labels)).

End Map.

(* ------------------------------------------------------------------------ *)
(** ** Sample data *)

Module Sample.
Import Db.

Definition wages : list row :=
  [ mkRow "Greece" (Some 15.2) (Some 12.7) (Some (- 16.7));
    mkRow "Latvia" (Some 8.1) (Some 14) (Some 72.4);
    mkRow "Bulgaria" (Some 6) (Some 15.3) (Some 155.2);
    mkRow "OECD" (Some 30) (Some 34.5) (Some 15);
    mkRow "Ukraine" None None None;
    mkRow "Atlantis" (Some 1) (Some 2) (Some 100) ].

(** One wage for every country: the minimum and the maximum coincide. *)
Definition flat_wages : list row :=
  [ mkRow "Greece" (Some 15) (Some 12) (Some (- 20)) ].

(** Layers over the [Line] model. *)
Definition world : Layer.t unit (World.row (list Z)) :=
  Layer.mk tt
    [ World.mk "Cyprus" "Asia" [0; 1]%Z;
      World.mk "Greece" "Europe" [10; 11; 12]%Z;
      World.mk "Russia" "Europe" [20; 21; 22; 23; 30; 40; 41; 42; 50; 51]%Z;
      World.mk "Ukraine" "Europe" [60; 61]%Z;
      World.mk "Norway" "Europe" [70; 71; 72]%Z;
      World.mk "Chile" "South America" [80]%Z ].

Definition disputed : Layer.t unit (Disputed.row (list Z)) :=
  Layer.mk tt [ Disputed.mk "N. Cyprus" [3; 4]%Z; Disputed.mk "Kashmir" [90]%Z ].

Definition admin1 : Layer.t unit (Admin1.row (list Z)) :=
  Layer.mk tt
    [ Admin1.mk (Some "Autonomous Republic of Crimea") [50]%Z;
      Admin1.mk None [99]%Z;
      Admin1.mk (Some "Sevastopol (crimea)") [51]%Z;
      Admin1.mk (Some "Attica") [11]%Z ].

(** Layers over the [Plane] model: the two parts of Cyprus are two unit
    squares, one unit apart. *)
Definition squares : Layer.t unit (World.row Plane.region) :=
  Layer.mk tt
    [ World.mk "Cyprus" "Asia" (Plane.Box 0 0 1 1);
      World.mk "Greece" "Europe" (Plane.Box 5 0 6 1) ].

Definition disputed_squares : Layer.t unit (Disputed.row Plane.region) :=
  Layer.mk tt [ Disputed.mk "N. Cyprus" (Plane.Box 0 2 1 3) ].

End Sample.

(* ------------------------------------------------------------------------ *)
(** ** Binning of the percentage change *)

Section Binning.
Import Num Pandas Map.

Lemma Qlt_bool_iff (a b : Q) : Qlt_bool a b = true <-> a < b.
Proof.
  unfold Qlt_bool. rewrite negb_true_iff.
  split; intro H.
  - apply Qnot_le_lt. intro Hle. apply Qle_bool_iff in Hle. congruence.
  - destruct (Qle_bool b a) eqn:E; [|reflexivity].
    apply Qle_bool_iff in E. lra.
Qed.

Lemma Qlt_bool_false_iff (a b : Q) : Qlt_bool a b = false <-> b <= a.
Proof.
  unfold Qlt_bool. rewrite negb_false_iff. apply Qle_bool_iff.
Qed.

Lemma labels_NoDup : NoDup labels.
Proof.
  unfold labels.
  repeat (constructor; [simpl; intuition discriminate|]).
  constructor.
Qed.

(** Brings every comparison of [v] with a threshold into the context. *)
Ltac thresholds v :=
  repeat match goal with
    | |- context [Qlt_bool ?b v] =>
        let E := fresh "E" in
        destruct (Qlt_bool b v) eqn:E;
        [apply Qlt_bool_iff in E | apply Qlt_bool_false_iff in E]
    end;
  try lra.

Lemma change_bins_cases (v : Q) :
  change_bins (Some v) =
    if Qle_bool v 0 then Some "< 0%"
    else if Qle_bool v 10 then Some "0–10%"
    else if Qle_bool v 20 then Some "10–20%"
    else if Qle_bool v 30 then Some "20–30%"
    else if Qle_bool v 40 then Some "30–40%"
    else if Qle_bool v 60 then Some "40–60%"
    else Some "60%+".
Proof.
  unfold change_bins, cut, bins. cbn [edge_eq searchsorted_left edge_lt].
  repeat match goal with
    | |- context [Qle_bool v ?b] =>
        let E := fresh "L" in
        destruct (Qle_bool v b) eqn:E;
        [apply Qle_bool_iff in E
        | apply (f_equal negb) in E; fold (Qlt_bool b v) in E;
          cbn [negb] in E; apply Qlt_bool_iff in E]
    end;
  thresholds v; reflexivity.
Qed.

Lemma change_bins_label (v : Q) :
  exists l, In l labels /\ change_bins (Some v) = Some l.
Proof.
  rewrite change_bins_cases.
  repeat match goal with
    | |- context [if ?c then _ else _] => destruct c
    end;
  eexists; (split; [|reflexivity]); simpl; tauto.
Qed.

(** C1.  A null percentage change gets no bin.  A number [v] gets exactly one
    of the seven labels, which are pairwise distinct, and the label is the
    one of the right-closed interval of the thresholds 0, 10, 20, 30, 40, 60
    that holds [v]: [v <= 0] gives "< 0%", [0 < v <= 10] gives "0–10%",
    and so on up to [60 < v], which gives "60%+". *)
Theorem C1_change_bins_right_closed :
  change_bins None = None /\
  NoDup labels /\
  forall v : Q,
    (exists l, In l labels /\ change_bins (Some v) = Some l /\
               forall l', change_bins (Some v) = Some l' -> l' = l) /\
    (v <= 0 -> change_bins (Some v) = Some "< 0%") /\
    (0 < v <= 10 -> change_bins (Some v) = Some "0–10%") /\
    (10 < v <= 20 -> change_bins (Some v) = Some "10–20%") /\
    (20 < v <= 30 -> change_bins (Some v) = Some "20–30%") /\
    (30 < v <= 40 -> change_bins (Some v) = Some "30–40%") /\
    (40 < v <= 60 -> change_bins (Some v) = Some "40–60%") /\
    (60 < v -> change_bins (Some v) = Some "60%+").
Proof.
  split; [reflexivity|]. split; [exact labels_NoDup|].
  intro v. split.
  - destruct (change_bins_label v) as (l & Hin & Hl).
    exists l. repeat split; trivial. congruence.
  - rewrite change_bins_cases.
    repeat match goal with
      | |- context [Qle_bool v ?b] =>
          let E := fresh "L" in
          destruct (Qle_bool v b) eqn:E;
          [apply Qle_bool_iff in E
          | let G := fresh "G" in
            assert (G : b < v)
              by (apply Qnot_le_lt; intro G; apply Qle_bool_iff in G; congruence);
            clear E]
      end;
    repeat split; intros; try reflexivity; exfalso; lra.
Qed.

(** At 15 the bin is "10–20%"; at the threshold 20 it still is. *)
Lemma C1_witness :
  change_bins (Some 15) = Some "10–20%" /\ change_bins (Some 20) = Some "10–20%".
Proof.
  destruct C1_change_bins_right_closed as (_ & _ & H).
  split.
  - apply (H 15). split; reflexivity || discriminate.
  - apply (H 20). split; reflexivity || discriminate.
Defined.

End Binning.

(* ------------------------------------------------------------------------ *)
(** ** Sorting *)

Section Sorting.
Import Num Pandas.
Context {row : Type} (by_ : row -> option Q).

Lemma key_le_total (a b : option Q) : key_le a b = false -> key_le b a = true.
Proof.
  destruct a as [x|], b as [y|]; simpl; try congruence.
  intro H. apply Qle_bool_iff.
  destruct (Qle_bool x y) eqn:E; [discriminate|].
  apply Qlt_le_weak, Qnot_le_lt. intro L. apply Qle_bool_iff in L. congruence.
Qed.

Lemma key_le_trans (a b c : option Q) :
  key_le a b = true -> key_le b c = true -> key_le a c = true.
Proof.
  destruct a as [x|], b as [y|], c as [z|]; simpl; try congruence.
  rewrite !Qle_bool_iff. apply Qle_trans.
Qed.

Lemma insert_perm (r : row) (l : list row) :
  Permutation (r :: l) (insert by_ r l).
Proof.
  induction l as [|x l IH]; simpl.
  - apply Permutation_refl.
  - destruct (key_le (by_ r) (by_ x)).
    + apply Permutation_refl.
    + eapply perm_trans; [apply perm_swap|]. apply perm_skip, IH.
Qed.

Lemma argsort_perm (l : list row) : Permutation l (argsort by_ l).
Proof.
  induction l as [|r l IH]; simpl.
  - constructor.
  - eapply perm_trans; [apply perm_skip, IH|]. apply insert_perm.
Qed.

Lemma filter_split_perm (f : row -> bool) (l : list row) :
  Permutation l (filter f l ++ filter (fun r => negb (f r)) l).
Proof.
  induction l as [|r l IH]; simpl.
  - constructor.
  - destruct (f r); simpl.
    + apply perm_skip, IH.
    + apply Permutation_cons_app, IH.
Qed.

Lemma sort_values_perm (df : list row) : Permutation df (sort_values by_ df).
Proof.
  unfold sort_values.
  eapply perm_trans; [apply (filter_split_perm (fun r => notna (by_ r)))|].
  apply Permutation_app_tail, argsort_perm.
Qed.

Lemma insert_In (r x : row) (l : list row) :
  In x (insert by_ r l) -> x = r \/ In x l.
Proof.
  intro H. apply (Permutation_in _ (Permutation_sym (insert_perm r l))) in H.
  destruct H; auto.
Qed.

Lemma insert_sorted (r : row) (l : list row) :
  StronglySorted (ascending by_) l -> StronglySorted (ascending by_) (insert by_ r l).
Proof.
  induction 1 as [|x l Hs IH Hx]; simpl.
  - repeat constructor.
  - destruct (key_le (by_ r) (by_ x)) eqn:E.
    + constructor; [constructor; assumption|].
      constructor; [exact E|].
      rewrite Forall_forall in Hx |- *. intros y Hy.
      exact (key_le_trans _ _ _ E (Hx y Hy)).
    + constructor; [exact IH|].
      rewrite Forall_forall in Hx |- *. intros y Hy.
      destruct (insert_In _ _ _ Hy) as [->|Hy'].
      * apply key_le_total, E.
      * apply Hx, Hy'.
Qed.

Lemma argsort_sorted (l : list row) : StronglySorted (ascending by_) (argsort by_ l).
Proof.
  induction l as [|r l IH]; simpl.
  - constructor.
  - apply insert_sorted, IH.
Qed.

Lemma sorted_app (l1 l2 : list row) :
  StronglySorted (ascending by_) l1 -> StronglySorted (ascending by_) l2 ->
  (forall a b, In a l1 -> In b l2 -> ascending by_ a b) ->
  StronglySorted (ascending by_) (l1 ++ l2).
Proof.
  induction 1 as [|x l Hs IH Hx]; simpl; intros H2 Hc.
  - exact H2.
  - constructor.
    + apply IH; [exact H2|]. intros a b Ha Hb. apply Hc; simpl; auto.
    + apply Forall_app. split; [exact Hx|].
      apply Forall_forall. intros b Hb. apply Hc; simpl; auto.
Qed.

Lemma all_na_sorted (l : list row) :
  (forall r, In r l -> by_ r = None) -> StronglySorted (ascending by_) l.
Proof.
  induction l as [|x l IH]; intro H.
  - constructor.
  - constructor.
    + apply IH. intros r Hr. apply H. simpl; auto.
    + apply Forall_forall. intros y Hy. unfold ascending.
      rewrite (H y) by (simpl; auto). destruct (by_ x); reflexivity.
Qed.

Lemma sort_values_sorted (df : list row) :
  StronglySorted (ascending by_) (sort_values by_ df).
Proof.
  unfold sort_values. apply sorted_app.
  - apply argsort_sorted.
  - apply all_na_sorted. intros r Hr. apply filter_In in Hr.
    destruct Hr as [_ Hr]. destruct (by_ r); [discriminate|reflexivity].
  - intros a b _ Hb. apply filter_In in Hb. destruct Hb as [_ Hb].
    unfold ascending. destruct (by_ b); [discriminate|].
    destruct (by_ a); reflexivity.
Qed.

(** In a sorted list an earlier number is at most a later one. *)
Lemma sorted_nth (l : list row) :
  StronglySorted (ascending by_) l ->
  forall i j a b x y, (i < j)%nat ->
    nth_error l i = Some a -> nth_error l j = Some b ->
    by_ a = Some x -> by_ b = Some y -> x <= y.
Proof.
  induction 1 as [|r l Hs IH Hr]; intros i j a b x y Hij Ha Hb Hx Hy.
  - destruct i; discriminate.
  - destruct j as [|j]; [lia|]. simpl in Hb.
    destruct i as [|i]; simpl in Ha.
    + injection Ha as ->. apply nth_error_In in Hb.
      rewrite Forall_forall in Hr. specialize (Hr b Hb).
      unfold ascending in Hr. rewrite Hx, Hy in Hr.
      apply Qle_bool_iff, Hr.
    + apply (IH i j a b x y); trivial. lia.
Qed.

End Sorting.

(** Sorting looks at the keys only: it commutes with any map of the rows
    that keeps the key. *)
Section SortMap.
Import Num Pandas.
Context {A B : Type} (ka : A -> option Q) (kb : B -> option Q) (f : A -> B).
Hypothesis key_kept : forall a, kb (f a) = ka a.

Lemma insert_map (a : A) (l : list A) :
  insert kb (f a) (map f l) = map f (insert ka a l).
Proof.
  induction l as [|x l IH]; simpl; [reflexivity|].
  rewrite !key_kept. destruct (key_le (ka a) (ka x)); simpl; [reflexivity|].
  now rewrite IH.
Qed.

Lemma argsort_map (l : list A) : argsort kb (map f l) = map f (argsort ka l).
Proof.
  induction l as [|x l IH]; simpl; [reflexivity|].
  now rewrite IH, insert_map.
Qed.

Lemma filter_map_key (p : option Q -> bool) (l : list A) :
  filter (fun b => p (kb b)) (map f l) = map f (filter (fun a => p (ka a)) l).
Proof.
  induction l as [|x l IH]; simpl; [reflexivity|].
  rewrite key_kept. destruct (p (ka x)); simpl; now rewrite IH.
Qed.

Lemma sort_values_map (l : list A) :
  sort_values kb (map f l) = map f (sort_values ka l).
Proof.
  unfold sort_values.
  rewrite (filter_map_key notna), (filter_map_key (fun k => negb (notna k))).
  now rewrite argsort_map, map_app.
Qed.

End SortMap.

(* ------------------------------------------------------------------------ *)
(** ** Minimum and maximum of a column *)

Section MinMax.
Import Num.

Lemma fold_min_spec (s : list (option Q)) (acc : option Q) :
  match fold_left opt_min s acc with
  | Some m =>
      (acc = Some m \/ In (Some m) s) /\
      (forall a, acc = Some a -> m <= a) /\
      (forall v, In (Some v) s -> m <= v)
  | None => acc = None /\ forall v, ~ In (Some v) s
  end.
Proof.
  revert acc. induction s as [|x s IH]; intro acc; simpl.
  - destruct acc as [a|].
    + split; [auto|]. split; [|tauto]. intros ? [= <-]. apply Qle_refl.
    + split; auto.
  - specialize (IH (opt_min acc x)).
    destruct (fold_left opt_min s (opt_min acc x)) as [m|].
    + destruct IH as (Hin & Hacc & Hs).
      destruct acc as [a|], x as [v|]; simpl in *.
      * destruct (Qlt_bool v a) eqn:E.
        -- apply Qlt_bool_iff in E.
           repeat split.
           ++ destruct Hin as [[= <-]|Hin]; auto.
           ++ intros ? [= <-]. specialize (Hacc v eq_refl). lra.
           ++ intros w [[= <-]|Hw]; auto.
        -- apply Qlt_bool_false_iff in E.
           repeat split.
           ++ destruct Hin as [Hin|Hin]; auto.
           ++ intros ? [= <-]. auto.
           ++ intros w [[= <-]|Hw]; auto.
              specialize (Hacc a eq_refl). lra.
      * repeat split.
        -- destruct Hin; auto.
        -- exact Hacc.
        -- intros w [Hw|Hw]; [discriminate|auto].
      * repeat split.
        -- destruct Hin as [Hin|Hin]; auto.
        -- intros ? [=].
        -- intros w [[= <-]|Hw]; auto.
      * repeat split.
        -- destruct Hin as [Hin|Hin]; [discriminate|auto].
        -- intros ? [=].
        -- intros w [Hw|Hw]; [discriminate|auto].
    + destruct IH as (Hacc & Hs).
      destruct acc as [a|], x as [v|]; simpl in *;
        try destruct (Qlt_bool v a); try discriminate.
      split; [reflexivity|]. intros w [Hw|Hw]; [discriminate|]. exact (Hs w Hw).
Qed.

Lemma fold_max_spec (s : list (option Q)) (acc : option Q) :
  match fold_left opt_max s acc with
  | Some m =>
      (acc = Some m \/ In (Some m) s) /\
      (forall a, acc = Some a -> a <= m) /\
      (forall v, In (Some v) s -> v <= m)
  | None => acc = None /\ forall v, ~ In (Some v) s
  end.
Proof.
  revert acc. induction s as [|x s IH]; intro acc; simpl.
  - destruct acc as [a|].
    + split; [auto|]. split; [|tauto]. intros ? [= <-]. apply Qle_refl.
    + split; auto.
  - specialize (IH (opt_max acc x)).
    destruct (fold_left opt_max s (opt_max acc x)) as [m|].
    + destruct IH as (Hin & Hacc & Hs).
      destruct acc as [a|], x as [v|]; simpl in *.
      * destruct (Qlt_bool a v) eqn:E.
        -- apply Qlt_bool_iff in E.
           repeat split.
           ++ destruct Hin as [[= <-]|Hin]; auto.
           ++ intros ? [= <-]. specialize (Hacc v eq_refl). lra.
           ++ intros w [[= <-]|Hw]; auto.
        -- apply Qlt_bool_false_iff in E.
           repeat split.
           ++ destruct Hin as [Hin|Hin]; auto.
           ++ intros ? [= <-]. auto.
           ++ intros w [[= <-]|Hw]; auto.
              specialize (Hacc a eq_refl). lra.
      * repeat split.
        -- destruct Hin; auto.
        -- exact Hacc.
        -- intros w [Hw|Hw]; [discriminate|auto].
      * repeat split.
        -- destruct Hin as [Hin|Hin]; auto.
        -- intros ? [=].
        -- intros w [[= <-]|Hw]; auto.
      * repeat split.
        -- destruct Hin as [Hin|Hin]; [discriminate|auto].
        -- intros ? [=].
        -- intros w [Hw|Hw]; [discriminate|auto].
    + destruct IH as (Hacc & Hs).
      destruct acc as [a|], x as [v|]; simpl in *;
        try destruct (Qlt_bool a v); try discriminate.
      split; [reflexivity|]. intros w [Hw|Hw]; [discriminate|]. exact (Hs w Hw).
Qed.

End MinMax.

Section SeriesBounds.
Import Num.

Lemma series_min_spec (s : list (option Q)) (lo : Q) :
  series_min s = Some lo ->
  In (Some lo) s /\ forall v, In (Some v) s -> lo <= v.
Proof.
  unfold series_min. intro H.
  pose proof (fold_min_spec s None) as S. rewrite H in S.
  destruct S as ([S|S] & _ & B); [discriminate|]. auto.
Qed.

Lemma series_max_spec (s : list (option Q)) (hi : Q) :
  series_max s = Some hi ->
  In (Some hi) s /\ forall v, In (Some v) s -> v <= hi.
Proof.
  unfold series_max. intro H.
  pose proof (fold_max_spec s None) as S. rewrite H in S.
  destruct S as ([S|S] & _ & B); [discriminate|]. auto.
Qed.

Lemma series_min_le_max (s : list (option Q)) (lo hi : Q) :
  series_min s = Some lo -> series_max s = Some hi -> lo <= hi.
Proof.
  intros Hlo Hhi.
  destruct (series_min_spec _ _ Hlo) as [Hin _].
  destruct (series_max_spec _ _ Hhi) as [_ Hb]. auto.
Qed.

End SeriesBounds.

(* ------------------------------------------------------------------------ *)
(** ** The bar chart *)

Section BarchartFacts.
Import Num Pandas Db Barchart.
Context {color : Type} (cmap : option Q -> color).

Lemma Normalize_series (s : list (option Q)) (value : option Q) :
  Normalize (series_min s) (series_max s) value
  = Ok (normalized (series_min s) (series_max s) value).
Proof.
  unfold Normalize, normalized.
  destruct (series_min s) as [lo|] eqn:Hlo; [|reflexivity].
  destruct (series_max s) as [hi|] eqn:Hhi; [|reflexivity].
  destruct (Qeq_bool lo hi); [reflexivity|].
  pose proof (series_min_le_max _ _ _ Hlo Hhi) as L.
  apply Qlt_bool_false_iff in L. now rewrite L.
Qed.

Lemma mapM_ok {A B : Type} (f : A -> result B) (g : A -> B) (l : list A) :
  (forall a, f a = Ok (g a)) -> mapM f l = Ok (map g l).
Proof.
  intro H. induction l as [|a l IH]; simpl; [reflexivity|].
  now rewrite H, IH.
Qed.

Lemma barh_map {A : Type} (fy : A -> string) (fw : A -> option Q)
  (fc : A -> color) (l : list A) :
  barh (map fy l) (map fw l) (map fc l) = map (fun a => mkBar (fy a) (fw a) (fc a)) l.
Proof.
  unfold barh. induction l as [|a l IH]; simpl; [reflexivity|].
  now rewrite IH.
Qed.

(** The bars of a column: one per row of the sorted frame, in its order. *)
Lemma bars_by_eq (by_ : row -> option Q) (df : list row) :
  bars_by cmap by_ df =
  Ok (map (fun r =>
             mkBar (country r) (by_ r)
               (cmap (normalized (series_min (map by_ (sort_values by_ df)))
                                 (series_max (map by_ (sort_values by_ df)))
                                 (by_ r))))
          (sort_values by_ df)).
Proof.
  unfold bars_by.
  rewrite (mapM_ok _ _ _ (Normalize_series (map by_ (sort_values by_ df)))).
  rewrite !map_map.
  now rewrite (barh_map country by_
                 (fun r => cmap (normalized _ _ (by_ r))) (sort_values by_ df)).
Qed.

Lemma bars1_by (df : list row) : bars1 cmap df = bars_by cmap hw_2007 df.
Proof. reflexivity. Qed.

Lemma bars2_by (df : list row) : bars2 cmap df = bars_by cmap hw_2024 df.
Proof. reflexivity. Qed.

End BarchartFacts.

Section BarchartClaims.
Import Num Pandas Db Barchart.
Context {color : Type} (cmap : option Q -> color).

(** C4.  With [df] the filtered frame, the script draws its two lists of
    bars without error: the left bars follow [df] sorted by [hw_2007] and
    the right bars follow [df] sorted by [hw_2024].  Each sorted frame is a
    permutation of [df], so it holds the same rows with names and wages
    untouched; each is ascending in its own column, rows without a wage
    last; and the (name, wage) sequence of either side is the sort of that
    side's two columns alone, so neither ordering depends on the other
    year. *)
Theorem C4_two_independent_orders (e : engine) :
  let df := prepare (load e) in
  let left := df_2007_sorted df in
  let right := df_2024_sorted df in
  Permutation df left /\ Permutation df right /\
  StronglySorted (ascending hw_2007) left /\
  StronglySorted (ascending hw_2024) right /\
  (forall i j a b x y, (i < j)%nat ->
     nth_error left i = Some a -> nth_error left j = Some b ->
     hw_2007 a = Some x -> hw_2007 b = Some y -> x <= y) /\
  (forall i j a b x y, (i < j)%nat ->
     nth_error right i = Some a -> nth_error right j = Some b ->
     hw_2024 a = Some x -> hw_2024 b = Some y -> x <= y) /\
  (exists b1 b2, chart cmap e = Ok (b1, b2) /\
     map bar_y b1 = map country left /\ map bar_width b1 = map hw_2007 left /\
     map bar_y b2 = map country right /\ map bar_width b2 = map hw_2024 right) /\
  map (fun r => (country r, hw_2007 r)) left
    = sort_values snd (map (fun r => (country r, hw_2007 r)) df) /\
  map (fun r => (country r, hw_2024 r)) right
    = sort_values snd (map (fun r => (country r, hw_2024 r)) df).
Proof.
  intros df left right. unfold left, right, df_2007_sorted, df_2024_sorted.
  split; [apply sort_values_perm|].
  split; [apply sort_values_perm|].
  split; [apply sort_values_sorted|].
  split; [apply sort_values_sorted|].
  split; [apply sorted_nth, sort_values_sorted|].
  split; [apply sorted_nth, sort_values_sorted|].
  split.
  { unfold chart. fold df. rewrite bars1_by, bars2_by, !bars_by_eq.
    do 2 eexists. split; [reflexivity|].
    rewrite !map_map. simpl. auto. }
  split; symmetry; apply sort_values_map; reflexivity.
Qed.

(** C5, as amended.  Lines 95-97 and 107-108 are the same computation on the
    column [hw_2007] and on the column [hw_2024].  For either column, with
    [lo] and [hi] the minimum and maximum of its wages: the bars are
    computed without error, one per row of the sorted frame; when
    [lo < hi] a country with wage [v] is coloured by the colormap at
    [(v - lo) / (hi - lo)], which is 0 at [lo] and 1 at [hi]; when all the
    wages of the column coincide, every bar is coloured by the colormap
    at 0. *)
Theorem C5_normalized_per_series (raw : list row) :
  let df := prepare raw in
  bars1 cmap df = bars_by cmap hw_2007 df /\
  bars2 cmap df = bars_by cmap hw_2024 df /\
  forall (by_ : row -> option Q) (lo hi : Q),
    series_min (map by_ (sort_values by_ df)) = Some lo ->
    series_max (map by_ (sort_values by_ df)) = Some hi ->
    (exists r, In r df /\ by_ r = Some lo) /\
    (exists r, In r df /\ by_ r = Some hi) /\
    (forall r v, In r df -> by_ r = Some v -> lo <= v <= hi) /\
    (exists bs, bars_by cmap by_ df = Ok bs /\
       forall i r, nth_error (sort_values by_ df) i = Some r ->
         exists b, nth_error bs i = Some b /\
           bar_y b = country r /\ bar_width b = by_ r /\
           (lo < hi -> forall v, by_ r = Some v ->
              bar_color b = cmap (Some ((v - lo) / (hi - lo)))) /\
           (lo == hi -> bar_color b = cmap (Some 0))) /\
    (lo < hi -> (lo - lo) / (hi - lo) == 0 /\ (hi - lo) / (hi - lo) == 1).
Proof.
  intro df. split; [apply bars1_by|]. split; [apply bars2_by|].
  intros by_ lo hi Hlo Hhi.
  destruct (series_min_spec _ _ Hlo) as [Ilo Blo].
  destruct (series_max_spec _ _ Hhi) as [Ihi Bhi].
  assert (Hin : forall v, In (Some v) (map by_ (sort_values by_ df)) <->
                          exists r, In r df /\ by_ r = Some v).
  { intro v. rewrite in_map_iff. split; intros (r & A & B).
    - exists r. split; [|exact A].
      exact (Permutation_in _ (Permutation_sym (sort_values_perm by_ df)) B).
    - exists r. split; [exact B|].
      exact (Permutation_in _ (sort_values_perm by_ df) A). }
  split; [apply Hin, Ilo|]. split; [apply Hin, Ihi|].
  split.
  { intros r v Hr Hv. split; [apply Blo|apply Bhi]; apply Hin; eauto. }
  split.
  { rewrite bars_by_eq, Hlo, Hhi. eexists. split; [reflexivity|].
    intros i r Hi. eexists. split; [apply map_nth_error, Hi|].
    cbn [bar_y bar_width bar_color]. repeat split.
    - intros L v Hv. unfold normalized. rewrite Hv.
      destruct (Qeq_bool lo hi) eqn:E; [|reflexivity].
      apply Qeq_bool_iff in E. lra.
    - intro E. unfold normalized. apply Qeq_bool_iff in E. now rewrite E. }
  intro L. split; field; lra.
Qed.

End BarchartClaims.

(** Of the left bars of the sample, Latvia's stands before Greece's. *)
Lemma C4_witness : 8.1 <= 15.2.
Proof.
  destruct (C4_two_independent_orders (fun x : option Q => x)
              (fun _ => Sample.wages))
    as (_ & _ & _ & _ & H & _).
  apply (H 1%nat 2%nat
           (Db.mkRow "Latvia" (Some 8.1) (Some 14) (Some 72.4))
           (Db.mkRow "Greece" (Some 15.2) (Some 12.7) (Some (- 16.7))));
    [lia | reflexivity | reflexivity | reflexivity | reflexivity].
Defined.

(** On the sample the wages of 2007 run from 1 to 30. *)
Lemma C5_witness :
  (1 - 1) / (30 - 1) == 0 /\ (30 - 1) / (30 - 1) == 1.
Proof.
  destruct (C5_normalized_per_series (fun x : option Q => x) Sample.wages)
    as (_ & _ & H).
  destruct (H Db.hw_2007 1 30 eq_refl eq_refl) as (_ & _ & _ & _ & E).
  apply E. reflexivity.
Defined.

(** C5 as stated fails when a column holds one wage only: that wage is the
    minimum and the maximum at once, [Normalize] sends it to 0, and the bar
    is coloured at 0, not at 1. *)
Lemma C5_counterexample :
  let df := Barchart.prepare Sample.flat_wages in
  Num.series_min (map Db.hw_2007 (Barchart.df_2007_sorted df)) = Some 15 /\
  Num.series_max (map Db.hw_2007 (Barchart.df_2007_sorted df)) = Some 15 /\
  Barchart.norm_2007 df (Some 15) = Ok (Some 0) /\
  Barchart.bars1 (fun x => x) df = Ok [Barchart.mkBar "Greece" (Some 15) (Some 0)] /\
  ~ 0 == 1.
Proof.
  repeat split. discriminate.
Qed.

(* ------------------------------------------------------------------------ *)
(** ** Loading and preparing the wage table *)

Section Loading.
Import Pandas Db.

(** C7.  Both scripts fetch their wages with the same constant SQL text,
    [SELECT * FROM oecd_hw_change]: whatever the database behind the engine,
    the frame loaded is what that text returns. *)
Theorem C7_one_fixed_query :
  Barchart.query = "SELECT * FROM oecd_hw_change" /\
  Map.query = "SELECT * FROM oecd_hw_change" /\
  Barchart.query = Map.query /\
  forall e : engine,
    Barchart.load e = e "SELECT * FROM oecd_hw_change" /\
    Map.load e = e "SELECT * FROM oecd_hw_change".
Proof.
  repeat split.
Qed.

Lemma isin_In (s : string) (values : list string) :
  isin s values = true <-> In s values.
Proof.
  unfold isin. rewrite existsb_exists. split.
  - intros (x & Hx & E). apply String.eqb_eq in E. now subst.
  - intro H. exists s. split; [exact H|apply String.eqb_refl].
Qed.

Lemma not_in_usd_iff (c : string) :
  isin c Barchart.not_in_usd = false <->
  c <> "Bulgaria" /\ c <> "Romania" /\ c <> "Croatia".
Proof.
  destruct (isin c Barchart.not_in_usd) eqn:E.
  - apply isin_In in E. simpl in E. split; [discriminate|].
    intros (A & B & C). destruct E as [E|[E|[E|[]]]]; congruence.
  - split; [|reflexivity]. intros _.
    assert (N : ~ In c Barchart.not_in_usd)
      by (intro H; apply isin_In in H; congruence).
    simpl in N. repeat split; intro; subst; apply N; auto.
Qed.

(** C9.  The preparation of the bar chart keeps the rows of the frame, in
    order and with their multiplicity, except exactly those of Bulgaria,
    Romania and Croatia; a kept row whose country is "OECD" comes out with
    the country "OECD average" and its two wages, and every other kept row
    comes out as it went in. *)
Theorem C9_prepare (df : list row) :
  (forall r, In r (Barchart.exclude df) <->
     In r df /\ country r <> "Bulgaria" /\ country r <> "Romania"
             /\ country r <> "Croatia") /\
  (exists removed,
     Permutation df (Barchart.exclude df ++ removed) /\
     Forall (fun r => In (country r) ["Bulgaria"; "Romania"; "Croatia"]) removed) /\
  List.length (Barchart.prepare df) = List.length (Barchart.exclude df) /\
  forall i r, nth_error (Barchart.exclude df) i = Some r ->
    exists r', nth_error (Barchart.prepare df) i = Some r' /\
      hw_2007 r' = hw_2007 r /\ hw_2024 r' = hw_2024 r /\
      (country r = "OECD" -> country r' = "OECD average") /\
      (country r <> "OECD" -> r' = r).
Proof.
  split.
  { intro r. unfold Barchart.exclude. rewrite filter_In, negb_true_iff.
    now rewrite not_in_usd_iff. }
  split.
  { exists (filter (fun r => negb (negb (isin (country r) Barchart.not_in_usd))) df).
    split.
    - apply (filter_split_perm
               (fun r => negb (isin (country r) Barchart.not_in_usd))).
    - apply Forall_forall. intros r Hr. apply filter_In in Hr.
      destruct Hr as [_ Hr]. rewrite negb_involutive in Hr.
      apply isin_In in Hr. exact Hr. }
  split.
  { unfold Barchart.prepare. apply length_map. }
  intros i r Hi. exists (Barchart.rename r).
  split; [unfold Barchart.prepare; apply map_nth_error, Hi|].
  unfold Barchart.rename, replace_cell. cbn [hw_2007 hw_2024 country].
  repeat split.
  - intros ->. reflexivity.
  - intro N. apply String.eqb_neq in N. rewrite N. now destruct r.
Qed.

End Loading.

(** In the sample, the row of the OECD is the third that is kept. *)
Lemma C9_witness :
  exists r', nth_error (Barchart.prepare Sample.wages) 2 = Some r' /\
             Db.country r' = "OECD average" /\ Db.hw_2007 r' = Some 30.
Proof.
  destruct (C9_prepare Sample.wages) as (_ & _ & _ & H).
  destruct (H 2%nat (Db.mkRow "OECD" (Some 30) (Some 34.5) (Some 15)) eq_refl)
    as (r' & Hn & H07 & _ & Ho & _).
  exists r'. split; [exact Hn|]. split; [apply Ho; reflexivity|exact H07].
Defined.

(* ------------------------------------------------------------------------ *)
(** ** The line model obeys the laws of point sets *)

Section LineLaws.
Import Line.

Lemma mem_In (x : Z) (g : list Z) : mem x g = true <-> In x g.
Proof.
  unfold mem. rewrite existsb_exists. split.
  - intros (y & Hy & E). apply Z.eqb_eq in E. now subst.
  - intro H. exists x. split; [exact H|apply Z.eqb_refl].
Qed.

Lemma ball_In (x n p : Z) : In p (ball x n) <-> (Z.abs (p - x) <= n)%Z.
Proof.
  unfold ball. rewrite in_map_iff. split.
  - intros (k & <- & Hk). apply in_seq in Hk. lia.
  - intro H. exists (Z.to_nat (p - (x - n))). split; [lia|].
    apply in_seq. lia.
Qed.

Lemma dilate_In (g : list Z) (n p : Z) :
  In p (dilate g n) <-> exists q, In q g /\ (Z.abs (p - q) <= n)%Z.
Proof.
  unfold dilate. rewrite in_flat_map.
  split; intros (q & Hq & H); exists q; (split; [exact Hq|]); apply ball_In, H.
Qed.

Lemma line_laws : Shapely.Laws Line.ops.
Proof.
  constructor; cbn [Shapely.covers Shapely.union Shapely.difference
                    Shapely.unary_union Shapely.buffer ops].
  - intros a b p. apply in_app_iff.
  - intros a b p. rewrite filter_In, negb_true_iff, <- (mem_In p b).
    destruct (mem p b); intuition congruence.
  - intros l p. apply in_concat.
  - intros g p. unfold buffer. change (Qle_bool 0 0) with true.
    change (Qfloor 0) with 0%Z. rewrite dilate_In. split.
    + intros (q & Hq & H). replace p with q by lia. exact Hq.
    + intro H. exists p. split; [exact H|lia].
Qed.

End LineLaws.

(* ------------------------------------------------------------------------ *)
(** ** Writing a geometry column back *)

Section LocGeometry.
Context {geom : Type}.

Lemma loc_geometry_length (mask : Mrg.row geom -> bool) (f : geom -> geom)
  (df : list (Mrg.row geom)) :
  List.length (Mrg.loc_geometry mask f df) = List.length df.
Proof. apply length_map. Qed.

Lemma loc_geometry_nth (mask : Mrg.row geom -> bool) (f : geom -> geom)
  (df : list (Mrg.row geom)) (i : nat) (r : Mrg.row geom) :
  nth_error df i = Some r ->
  exists r', nth_error (Mrg.loc_geometry mask f df) i = Some r' /\
    Mrg.NAME r' = Mrg.NAME r /\
    Mrg.country r' = Mrg.country r /\
    Mrg.pct_change_2007_2024 r' = Mrg.pct_change_2007_2024 r /\
    (mask r = true -> Mrg.geometry r' = f (Mrg.geometry r)) /\
    (mask r = false -> r' = r).
Proof.
  intro H. unfold Mrg.loc_geometry.
  eexists. split; [apply map_nth_error, H|].
  destruct (mask r); simpl; repeat split; congruence.
Qed.

Lemma is_named_true (n : string) (r : Mrg.row geom) :
  Map.is_named n r = true <-> Mrg.NAME r = n.
Proof. apply String.eqb_eq. Qed.

Lemma is_named_false (n : string) (r : Mrg.row geom) :
  Map.is_named n r = false <-> Mrg.NAME r <> n.
Proof. apply String.eqb_neq. Qed.

End LocGeometry.

(* ------------------------------------------------------------------------ *)
(** ** Point sets *)

Section PointSets.
Import Shapely.
Context {geom point crs : Type} {shapely : Ops geom point crs}.
Context (laws : Laws shapely).


End PointSets.

(* ------------------------------------------------------------------------ *)
(** ** Crimea and the Russian islands *)

Section Territories.
Import Shapely Map.
Context {geom point crs : Type} {shapely : Ops geom point crs}.
Context (laws : Laws shapely).


(** C3.  The parts kept by the island step are exactly the parts of the
    geometry of Russia whose area is above [min_area], which is 0.10; a part
    of area 0.10 or less is not kept.  A row named Russia gets the union of
    the kept parts, and so the points of those parts and no others; any
    other row is left as it was. *)
Theorem C3_islands_dropped (df_mrg : list (Mrg.row geom)) :
  let cleaned := drop_islands df_mrg in
  min_area == 1 # 10 /\
  (forall r, filter (is_named "Russia") df_mrg = [r] ->
     russia_parts df_mrg = get_parts (Mrg.geometry r)) /\
  (forall part, In part (large_parts df_mrg) <->
     In part (russia_parts df_mrg) /\ min_area < area part) /\
  (forall part, area part <= min_area -> ~ In part (large_parts df_mrg)) /\
  List.length cleaned = List.length df_mrg /\
  forall i r, nth_error df_mrg i = Some r ->
    exists r', nth_error cleaned i = Some r' /\
      Mrg.NAME r' = Mrg.NAME r /\
      Mrg.country r' = Mrg.country r /\
      Mrg.pct_change_2007_2024 r' = Mrg.pct_change_2007_2024 r /\
      (Mrg.NAME r = "Russia" ->
         Mrg.geometry r' = unary_union (large_parts df_mrg) /\
         (forall p, covers (Mrg.geometry r') p <->
                    exists part, In part (russia_parts df_mrg) /\
                                 min_area < area part /\ covers part p)) /\
      (Mrg.NAME r <> "Russia" -> r' = r).
Proof.
  intro cleaned. unfold cleaned, drop_islands.
  assert (L : forall part, In part (large_parts df_mrg) <->
                In part (russia_parts df_mrg) /\ min_area < area part).
  { intro part. unfold large_parts. now rewrite filter_In, Qlt_bool_iff. }
  split; [reflexivity|].
  split.
  { intros r E. unfold russia_parts. rewrite E. simpl. apply app_nil_r. }
  split; [exact L|].
  split.
  { intros part A I. apply L in I. lra. }
  split; [apply loc_geometry_length|].
  intros i r Hi.
  destruct (loc_geometry_nth (is_named "Russia")
              (fun _ => clean_russia df_mrg) _ _ _ Hi)
    as (r1 & H1 & N1 & C1 & P1 & G1 & K1).
  exists r1. split; [exact H1|].
  split; [exact N1|]. split; [exact C1|]. split; [exact P1|].
  split.
  - intro HR. rewrite G1 by apply is_named_true, HR.
    split; [reflexivity|]. intro p. unfold clean_russia.
    rewrite covers_unary_union. split.
    + intros (g & Hg & Hp). apply L in Hg. exists g. tauto.
    + intros (g & Hg & A & Hp). exists g. split; [apply L; tauto|exact Hp].
  - intro NR. apply K1, is_named_false, NR.
Qed.

End Territories.


(** On the sample, the lone cell 30 of Russia has area 0.05 and is dropped;
    the runs 20-23 and 40-42 have areas 0.2 and 0.15 and stay. *)
Lemma C3_witness :
  exists r',
    nth_error
      (Map.drop_islands
         (Map.move_crimea (Map.crimea Sample.admin1 tt)
            (Map.df_mrg_merged Sample.wages Sample.world Sample.disputed))) 2
    = Some r' /\
    Mrg.geometry r' = [20; 21; 22; 23; 40; 41; 42]%Z.
Proof.
  destruct (C3_islands_dropped line_laws
              (Map.move_crimea (Map.crimea Sample.admin1 tt)
                 (Map.df_mrg_merged Sample.wages Sample.world Sample.disputed)))
    as (_ & _ & _ & _ & _ & H).
  destruct (H 2%nat
              (Mrg.mk None None "Russia" [20; 21; 22; 23; 30; 40; 41; 42]%Z)
              eq_refl)
    as (r' & Hn & _ & _ & _ & HR & _).
  exists r'. split; [exact Hn|].
  destruct (HR eq_refl) as [E _]. rewrite E. reflexivity.
Defined.

(* ------------------------------------------------------------------------ *)
(** ** Cyprus *)

Section Cyprus.
Import Shapely Map.
Context {geom point crs : Type} {shapely : Ops geom point crs}.
Context (laws : Laws shapely).

(** C6, as amended.  [full_cy] is the union of the geometries named Cyprus
    in the countries layer and of those named N. Cyprus in the disputed
    layer, the latter reprojected to the CRS of the countries layer,
    buffered by 0.05 and then by -0.05.  The rows named Cyprus get [full_cy]
    as their geometry and nothing else in the countries layer changes.
    Nothing is claimed about [full_cy] holding the points of the union:
    see [C6_counterexample]. *)
Theorem C6_cyprus_united (world : Layer.t crs (World.row geom))
  (disputed : Layer.t crs (Disputed.row geom)) :
  let united := unite_cyprus world disputed in
  (forall g, In g (south_cy world) <->
     exists r, In r (Layer.rows world) /\ World.NAME r = "Cyprus"
               /\ World.geometry r = g) /\
  (forall g, In g (north_cy world disputed) <->
     exists r, In r (Layer.rows disputed) /\ Disputed.NAME r = "N. Cyprus"
               /\ transform (Layer.crs_of disputed) (Layer.crs_of world)
                            (Disputed.geometry r) = g) /\
  full_cy_union world disputed
    = unary_union (south_cy world ++ north_cy world disputed)%list /\
  full_cy world disputed
    = buffer (buffer (full_cy_union world disputed) 0.05) (- 0.05) /\
  (forall p, covers (full_cy_union world disputed) p <->
     exists g, (In g (south_cy world) \/ In g (north_cy world disputed))
               /\ covers g p) /\
  Layer.crs_of united = Layer.crs_of world /\
  List.length (Layer.rows united) = List.length (Layer.rows world) /\
  forall i r, nth_error (Layer.rows world) i = Some r ->
    exists r', nth_error (Layer.rows united) i = Some r' /\
      World.NAME r' = World.NAME r /\
      World.CONTINENT r' = World.CONTINENT r /\
      (World.NAME r = "Cyprus" -> World.geometry r' = full_cy world disputed) /\
      (World.NAME r <> "Cyprus" -> r' = r).
Proof.
  intro united.
  split.
  { intro g. unfold south_cy. rewrite in_map_iff. split.
    - intros (r & E & Hr). apply filter_In in Hr. destruct Hr as [Hr N].
      apply String.eqb_eq in N. eauto.
    - intros (r & Hr & N & E). exists r. split; [exact E|].
      apply filter_In. split; [exact Hr|]. now apply String.eqb_eq. }
  split.
  { intro g. unfold north_cy. rewrite map_map, in_map_iff. split.
    - intros (r & E & Hr). apply filter_In in Hr. destruct Hr as [Hr N].
      apply String.eqb_eq in N. eauto.
    - intros (r & Hr & N & E). exists r. split; [exact E|].
      apply filter_In. split; [exact Hr|]. now apply String.eqb_eq. }
  split; [reflexivity|]. split; [reflexivity|].
  split.
  { intro p. unfold full_cy_union. rewrite covers_unary_union.
    split; intros (g & Hg & Hp); exists g; (split; [|exact Hp]);
      apply in_app_iff; exact Hg. }
  split; [reflexivity|].
  split; [apply length_map|].
  intros i r Hi. eexists. split; [apply map_nth_error, Hi|].
  destruct (World.NAME r =? "Cyprus") eqn:E.
  - apply String.eqb_eq in E. simpl. repeat split; congruence.
  - apply String.eqb_neq in E. repeat split; congruence.
Qed.

End Cyprus.

Section PlaneLaws.
Import Plane.

Lemma plane_laws : Shapely.Laws Plane.ops.
Proof.
  constructor; cbn [Shapely.covers Shapely.union Shapely.difference
                    Shapely.unary_union Shapely.buffer ops].
  - intros a b p. cbn [coversb]. apply orb_true_iff.
  - intros a b p. cbn [coversb].
    rewrite andb_true_iff, negb_true_iff.
    destruct (coversb b p); intuition congruence.
  - intros l p. induction l as [|g l IH]; cbn [fold_right coversb].
    + split; [discriminate|]. intros (g & [] & _).
    + rewrite orb_true_iff, IH. split.
      * intros [H|(g' & Hg & H)]; [exists g; simpl; auto|exists g'; simpl; auto].
      * intros (g' & [<-|Hg] & H); [left; exact H|right; exists g'; auto].
  - intros g p. destruct g; reflexivity.
Qed.

End PlaneLaws.

(** On the squares of the sample the row of Cyprus gets [full_cy], which
    holds the middle of the southern square. *)
Lemma C6_witness :
  exists r',
    nth_error
      (Layer.rows (Map.unite_cyprus Sample.squares Sample.disputed_squares)) 0
    = Some r' /\
    World.geometry r' = Map.full_cy Sample.squares Sample.disputed_squares /\
    Shapely.covers (World.geometry r') (1 # 2, 1 # 2).
Proof.
  destruct (C6_cyprus_united plane_laws Sample.squares Sample.disputed_squares)
    as (_ & _ & _ & _ & _ & _ & _ & H).
  destruct (H 0%nat (World.mk "Cyprus" "Asia" (Plane.Box 0 0 1 1)) eq_refl)
    as (r' & Hn & _ & _ & HC & _).
  exists r'. split; [exact Hn|]. split; [exact (HC eq_refl)|].
  rewrite (HC eq_refl). vm_compute. reflexivity.
Defined.

(** C6 as stated fails at a corner.  With two unit squares for the two
    parts of Cyprus, the corner (0, 0) of the southern square lies in the
    union and not in [full_cy]: the outward buffer rounds the corner with
    chords, which pass inside the circle of radius 0.05, and the inward
    buffer moves every chord in by the full 0.05, past the corner.  The
    loss is small: the point (0.001, 0.001) is kept. *)
Lemma C6_counterexample :
  Shapely.covers
    (Map.full_cy_union Sample.squares Sample.disputed_squares) (0, 0) /\
  ~ Shapely.covers
      (Map.full_cy Sample.squares Sample.disputed_squares) (0, 0) /\
  Shapely.covers
    (Map.full_cy Sample.squares Sample.disputed_squares) (0.001, 0.001).
Proof.
  split; [vm_compute; reflexivity|].
  split; [vm_compute; discriminate|vm_compute; reflexivity].
Qed.

(* ------------------------------------------------------------------------ *)
(** ** The merge and what the adjustments leave alone *)

Section Merge.
Import Pandas Shapely Map.
Context {geom point crs : Type} {shapely : Ops geom point crs}.

(** The rows of the right join. *)
Lemma merge_In (df : list Db.row) (europe : list (Europe.row geom))
  (r : Mrg.row geom) :
  In r (merge df europe) <->
  exists e, In e europe /\
    (((forall w, In w df -> Db.country w <> Europe.NAME e) /\
      r = Mrg.mk None None (Europe.NAME e) (Europe.geometry e))
     \/ exists w, In w df /\ Db.country w = Europe.NAME e /\
          r = Mrg.mk (Some (Db.country w)) (Db.pct_change_2007_2024 w)
                     (Europe.NAME e) (Europe.geometry e)).
Proof.
  unfold merge. rewrite in_flat_map.
  split; intros (e & He & H); exists e; (split; [exact He|]).
  - destruct (filter (fun w => Db.country w =? Europe.NAME e) df)
      as [|w0 ws] eqn:F.
    + left. split.
      * intros w Hw E.
        assert (I : In w (filter (fun w => Db.country w =? Europe.NAME e) df))
          by (apply filter_In; split; [exact Hw|now apply String.eqb_eq]).
        rewrite F in I. exact I.
      * simpl in H. destruct H as [H|[]]. now symmetry.
    + right. apply in_map_iff in H. destruct H as (w & E & Hw).
      rewrite <- F in Hw. apply filter_In in Hw. destruct Hw as [Hw N].
      apply String.eqb_eq in N. exists w. auto.
  - destruct H as [[N ->]|(w & Hw & E & ->)].
    + destruct (filter (fun w => Db.country w =? Europe.NAME e) df)
        as [|w0 ws] eqn:F; [simpl; auto|].
      exfalso.
      assert (I : In w0 (filter (fun w => Db.country w =? Europe.NAME e) df))
        by (rewrite F; simpl; auto).
      apply filter_In in I. destruct I as [I E].
      apply String.eqb_eq in E. exact (N w0 I E).
    + assert (I : In w (filter (fun w => Db.country w =? Europe.NAME e) df))
        by (apply filter_In; split; [exact Hw|now apply String.eqb_eq]).
      destruct (filter (fun w => Db.country w =? Europe.NAME e) df)
        as [|w0 ws]; [destruct I|].
      apply in_map_iff. exists w. auto.
Qed.

Lemma merge_cons (df : list Db.row) (e : Europe.row geom)
  (l : list (Europe.row geom)) :
  merge df (e :: l) = (merge df [e] ++ merge df l)%list.
Proof. unfold merge. simpl. now rewrite app_nil_r. Qed.

(** Replacing geometries of [europe] by name before the merge is replacing
    them in the merged frame. *)
Lemma merge_loc_geometry (df : list Db.row) (europe : list (Europe.row geom))
  (n : string) (g : geom) :
  merge df (map (fun e => if Europe.NAME e =? n
                          then Europe.mk (Europe.NAME e) g else e) europe)
  = Mrg.loc_geometry (is_named n) (fun _ => g) (merge df europe).
Proof.
  induction europe as [|e l IH]; [reflexivity|].
  cbn [map]. rewrite merge_cons, (merge_cons df e l), IH.
  unfold Mrg.loc_geometry at 2. rewrite map_app.
  fold (Mrg.loc_geometry (is_named n) (fun _ => g) (merge df l)).
  f_equal. unfold merge, is_named. cbn [flat_map]. rewrite !app_nil_r.
  destruct (Europe.NAME e =? n) eqn:E; cbn [Europe.NAME Europe.geometry];
    destruct (filter (fun w => Db.country w =? Europe.NAME e) df) as [|w0 ws];
    cbn [map Mrg.NAME]; rewrite ?E; try reflexivity.
  - f_equal. rewrite map_map. apply map_ext. intro w. cbn [Mrg.NAME].
    now rewrite E.
  - f_equal. rewrite map_map. apply map_ext. intro w. cbn [Mrg.NAME].
    now rewrite E.
Qed.

Lemma europe_unite_cyprus (world : Layer.t crs (World.row geom))
  (disputed : Layer.t crs (Disputed.row geom)) :
  europe (unite_cyprus world disputed)
  = map (fun e => if Europe.NAME e =? "Cyprus"
                  then Europe.mk (Europe.NAME e) (full_cy world disputed) else e)
        (europe world).
Proof.
  unfold europe, unite_cyprus. cbn [Layer.rows].
  induction (Layer.rows world) as [|r l IH]; [reflexivity|].
  cbn [map filter].
  assert (E : forall r' : World.row geom,
             r' = (if World.NAME r =? "Cyprus"
                   then World.mk (World.NAME r) (World.CONTINENT r)
                                 (full_cy world disputed)
                   else r) ->
             World.NAME r' = World.NAME r /\
             World.CONTINENT r' = World.CONTINENT r).
  { intros r' ->. destruct (World.NAME r =? "Cyprus"); split; reflexivity. }
  destruct (E _ eq_refl) as [-> ->].
  destruct ((World.CONTINENT r =? "Europe") || isin (World.NAME r) neighbours).
  - cbn [map]. rewrite IH. f_equal. cbn [Europe.NAME].
    destruct (World.NAME r =? "Cyprus"); reflexivity.
  - exact IH.
Qed.

(** The merged frame is the merge of the untouched layer with the geometry
    of Cyprus written over. *)
Lemma df_mrg_merged_eq (df : list Db.row) (world : Layer.t crs (World.row geom))
  (disputed : Layer.t crs (Disputed.row geom)) :
  df_mrg_merged df world disputed
  = Mrg.loc_geometry (is_named "Cyprus") (fun _ => full_cy world disputed)
      (merge (drop_oecd df) (europe world)).
Proof.
  unfold df_mrg_merged. now rewrite europe_unite_cyprus, merge_loc_geometry.
Qed.

End Merge.

Section Adjustments.
Import Pandas Shapely Map.
Context {geom point crs : Type} {shapely : Ops geom point crs}.

(** From the merged frame to the plotted one, row by row. *)
Lemma adjusted_nth (c : geom) (m : list (Mrg.row geom)) (i : nat)
  (r1 : Mrg.row geom) :
  nth_error m i = Some r1 ->
  exists r, nth_error (drop_islands (move_crimea c m)) i = Some r /\
    Mrg.NAME r = Mrg.NAME r1 /\
    Mrg.country r = Mrg.country r1 /\
    Mrg.pct_change_2007_2024 r = Mrg.pct_change_2007_2024 r1 /\
    (Mrg.NAME r1 <> "Russia" -> Mrg.NAME r1 <> "Ukraine" -> r = r1).
Proof.
  intro H. unfold drop_islands, move_crimea, ukraine_plus_crimea,
    russia_minus_crimea.
  destruct (loc_geometry_nth (is_named "Russia")
              (fun g => buffer (difference g c) 0) _ _ _ H)
    as (r2 & H2 & N2 & C2 & P2 & _ & K2).
  destruct (loc_geometry_nth (is_named "Ukraine")
              (fun g => union g c) _ _ _ H2)
    as (r3 & H3 & N3 & C3 & P3 & _ & K3).
  match goal with
  | |- context [Mrg.loc_geometry ?mask ?f ?l] =>
      destruct (loc_geometry_nth mask f l i r3 H3)
        as (r4 & H4 & N4 & C4 & P4 & _ & K4)
  end.
  exists r4. split; [exact H4|].
  split; [congruence|]. split; [congruence|]. split; [congruence|].
  intros NR NU.
  rewrite K4 by (apply is_named_false; congruence).
  rewrite K3 by (apply is_named_false; congruence).
  apply K2, is_named_false, NR.
Qed.

Lemma adjusted_length (c : geom) (m : list (Mrg.row geom)) :
  List.length (drop_islands (move_crimea c m)) = List.length m.
Proof.
  unfold drop_islands, move_crimea, ukraine_plus_crimea, russia_minus_crimea.
  now rewrite !loc_geometry_length.
Qed.

(** Every plotted row comes from a merged row with the same name, country
    and percentage. *)
Lemma adjusted_In (c : geom) (m : list (Mrg.row geom)) (r : Mrg.row geom) :
  In r (drop_islands (move_crimea c m)) ->
  exists r1, In r1 m /\
    Mrg.NAME r = Mrg.NAME r1 /\
    Mrg.country r = Mrg.country r1 /\
    Mrg.pct_change_2007_2024 r = Mrg.pct_change_2007_2024 r1.
Proof.
  intro H. apply In_nth_error in H. destruct H as [i Hi].
  assert (Hlt : (i < List.length m)%nat).
  { rewrite <- (adjusted_length c m). apply nth_error_Some. congruence. }
  destruct (nth_error m i) as [r1|] eqn:E;
    [|apply nth_error_None in E; lia].
  destruct (adjusted_nth c m i r1 E) as (r' & Hr' & N & C & P & _).
  assert (r' = r) by congruence. subst r'.
  exists r1. split; [exact (nth_error_In _ _ E)|]. auto.
Qed.

Lemma adjusted_In_back (c : geom) (m : list (Mrg.row geom)) (r1 : Mrg.row geom) :
  In r1 m ->
  exists r, In r (drop_islands (move_crimea c m)) /\
    Mrg.NAME r = Mrg.NAME r1 /\ Mrg.country r = Mrg.country r1 /\
    Mrg.pct_change_2007_2024 r = Mrg.pct_change_2007_2024 r1.
Proof.
  intro H. apply In_nth_error in H. destruct H as [i Hi].
  destruct (adjusted_nth c m i r1 Hi) as (r & Hr & N & C & P & _).
  exists r. split; [exact (nth_error_In _ _ Hr)|]. auto.
Qed.

Lemma loc_geometry_names (mask : Mrg.row geom -> bool) (f : geom -> geom)
  (m : list (Mrg.row geom)) :
  map Mrg.NAME (Mrg.loc_geometry mask f m) = map Mrg.NAME m.
Proof.
  unfold Mrg.loc_geometry. rewrite map_map. apply map_ext. intro r.
  destruct (mask r); reflexivity.
Qed.

Lemma adjusted_names (c : geom) (m : list (Mrg.row geom)) :
  map Mrg.NAME (drop_islands (move_crimea c m)) = map Mrg.NAME m.
Proof.
  unfold drop_islands, move_crimea, ukraine_plus_crimea, russia_minus_crimea.
  now rewrite !loc_geometry_names.
Qed.

(** The names of the right join: every row of [europe] in turn, once per
    wage row of that name and once when there is none. *)
Lemma merge_names_repeat (df : list Db.row) (eu : list (Europe.row geom)) :
  map Mrg.NAME (merge df eu)
  = flat_map
      (fun e =>
         repeat (Europe.NAME e)
           (Nat.max 1
              (List.length
                 (filter (fun w => Db.country w =? Europe.NAME e) df))))
      eu.
Proof.
  induction eu as [|e eu IH]; [reflexivity|].
  rewrite merge_cons, map_app, IH. cbn [flat_map]. f_equal.
  unfold merge. cbn [flat_map]. rewrite app_nil_r.
  destruct (filter (fun w => Db.country w =? Europe.NAME e) df) as [|w ws];
    [reflexivity|].
  change (Nat.max 1 (List.length (w :: ws))) with (S (List.length ws)).
  rewrite map_map. cbn [Mrg.NAME map repeat]. f_equal.
  induction ws as [|w' ws IHw]; [reflexivity|]. cbn [map List.length repeat].
  now rewrite IHw.
Qed.

End Adjustments.

Section MapClaims.
Import Pandas Shapely Map.
Context {geom point crs : Type} {shapely : Ops geom point crs}.

(** C10.  Row by row, the frame that is plotted has the name, the country
    and the percentage change of the plain merge of the wage table with the
    untouched countries layer, and, unless the row is named Cyprus, Russia or
    Ukraine, its geometry too.  The percentage of a plotted row is the one
    of a row of the loaded table with that country, or NaN when the row has
    no country. *)
Theorem C10_adjustments_touch_geometry_only (df : list Db.row)
  (world : Layer.t crs (World.row geom))
  (disputed : Layer.t crs (Disputed.row geom))
  (admin1 : Layer.t crs (Admin1.row geom)) :
  let final := df_mrg df world disputed admin1 in
  let plain := merge (drop_oecd df) (europe world) in
  List.length final = List.length plain /\
  (forall i r0, nth_error plain i = Some r0 ->
     exists r, nth_error final i = Some r /\
       Mrg.NAME r = Mrg.NAME r0 /\
       Mrg.country r = Mrg.country r0 /\
       Mrg.pct_change_2007_2024 r = Mrg.pct_change_2007_2024 r0 /\
       (Mrg.NAME r0 <> "Cyprus" -> Mrg.NAME r0 <> "Russia" ->
        Mrg.NAME r0 <> "Ukraine" -> Mrg.geometry r = Mrg.geometry r0)) /\
  (forall r, In r final ->
     match Mrg.country r with
     | Some c =>
         c = Mrg.NAME r /\
         exists w, In w df /\ Db.country w = c /\
                   Db.pct_change_2007_2024 w = Mrg.pct_change_2007_2024 r
     | None => Mrg.pct_change_2007_2024 r = None
     end).
Proof.
  intros final plain. subst final plain. unfold df_mrg.
  split.
  { rewrite adjusted_length, df_mrg_merged_eq. apply loc_geometry_length. }
  split.
  { intros i r0 H0.
    destruct (loc_geometry_nth (is_named "Cyprus")
                (fun _ => full_cy world disputed) _ _ _ H0)
      as (r1 & H1 & N1 & C1 & P1 & _ & K1).
    rewrite <- df_mrg_merged_eq in H1.
    destruct (adjusted_nth (crimea admin1 (Layer.crs_of world)) _ _ _ H1)
      as (r & H & N & C & P & K).
    exists r. split; [exact H|].
    split; [congruence|]. split; [congruence|]. split; [congruence|].
    intros NC NR NU.
    rewrite K by congruence.
    rewrite K1 by (apply is_named_false, NC). reflexivity. }
  intros r Hr. apply adjusted_In in Hr.
  destruct Hr as (r1 & H1 & N & C & P). rewrite C, P, N.
  unfold df_mrg_merged in H1. apply merge_In in H1.
  destruct H1 as (e & _ & [[_ ->]|(w & Hw & E & ->)]); simpl.
  - reflexivity.
  - split; [exact E|]. exists w. repeat split.
    unfold drop_oecd in Hw. apply filter_In in Hw. apply Hw.
Qed.

(** C8.  The map shows one entry or more for every row of [europe] and only
    for these.  A country of [europe] that no row of the wage table names
    has no country and no percentage in the merged frame, gets no bin, and
    is drawn with [missing_kwds], whose face colour is lightgrey.  A wage
    row whose country names no row of [europe] is in no row of the merged
    frame and so in no entry of the map.

    The join is a right join.  The merged frame holds every row of [europe]
    with its geometry.  A wage row whose country is the name of a geometry
    (the OECD row apart, dropped on line 89) is joined to it: a row of the
    plotted frame has that name, that country and that percentage, and is
    drawn in the patch of that percentage.  A plotted row has no country
    only when no such wage row exists, and a country it has is its name and
    comes with the percentage of a wage row.  In order, the plotted frame
    lists each row of [europe] once per wage row of its name, and once when
    there is none. *)
Theorem C8_right_join_keeps_geometries (df : list Db.row)
  (world : Layer.t crs (World.row geom))
  (disputed : Layer.t crs (Disputed.row geom))
  (admin1 : Layer.t crs (Admin1.row geom)) :
  let eu := europe (unite_cyprus world disputed) in
  let final := df_mrg df world disputed admin1 in
  (forall e, In e eu -> exists r, In r final /\ Mrg.NAME r = Europe.NAME e) /\
  (forall r, In r final -> exists e, In e eu /\ Europe.NAME e = Mrg.NAME r) /\
  (forall e, In e eu ->
     (forall w, In w df -> Db.country w <> Europe.NAME e) ->
     forall r, In r final -> Mrg.NAME r = Europe.NAME e ->
       Mrg.country r = None /\
       Mrg.pct_change_2007_2024 r = None /\
       change_bins (Mrg.pct_change_2007_2024 r) = None /\
       In (Mrg.NAME r, Mrg.geometry r, Some missing_kwds) (plot final)) /\
  facecolor missing_kwds = Named "lightgrey" /\
  (forall w, In w df ->
     (forall e, In e eu -> Europe.NAME e <> Db.country w) ->
     (forall r, In r final -> Mrg.country r <> Some (Db.country w)) /\
     (forall g p, ~ In (Db.country w, g, p) (plot final))) /\
  (forall e, In e eu ->
     exists r, In r (df_mrg_merged df world disputed) /\
       Mrg.NAME r = Europe.NAME e /\ Mrg.geometry r = Europe.geometry e) /\
  (forall e w, In e eu -> In w df ->
     Db.country w = Europe.NAME e -> Db.country w <> "OECD" ->
     exists r, In r final /\
       Mrg.NAME r = Europe.NAME e /\
       Mrg.country r = Some (Db.country w) /\
       Mrg.pct_change_2007_2024 r = Db.pct_change_2007_2024 w /\
       In (Mrg.NAME r, Mrg.geometry r,
           draw (change_bins (Db.pct_change_2007_2024 w))) (plot final)) /\
  (forall r w, In r final -> Mrg.country r = None ->
     In w df -> Db.country w = Mrg.NAME r -> Db.country w = "OECD") /\
  (forall r c, In r final -> Mrg.country r = Some c ->
     c = Mrg.NAME r /\
     exists w, In w df /\ Db.country w = c /\
               Db.pct_change_2007_2024 w = Mrg.pct_change_2007_2024 r) /\
  map Mrg.NAME final
  = flat_map
      (fun e =>
         repeat (Europe.NAME e)
           (Nat.max 1
              (List.length
                 (filter (fun w => Db.country w =? Europe.NAME e)
                         (drop_oecd df)))))
      eu.
Proof.
  intros eu final.
  assert (Back : forall r, In r final ->
            exists r1, In r1 (merge (drop_oecd df) eu) /\
              Mrg.NAME r = Mrg.NAME r1 /\ Mrg.country r = Mrg.country r1 /\
              Mrg.pct_change_2007_2024 r = Mrg.pct_change_2007_2024 r1).
  { intros r Hr. exact (adjusted_In _ _ _ Hr). }
  split.
  { intros e He.
    assert (exists r1, In r1 (merge (drop_oecd df) eu)
                       /\ Mrg.NAME r1 = Europe.NAME e) as (r1 & H1 & N1).
    { destruct (filter (fun w => Db.country w =? Europe.NAME e) (drop_oecd df))
        as [|w ws] eqn:F.
      - exists (Mrg.mk None None (Europe.NAME e) (Europe.geometry e)).
        split; [|reflexivity]. apply merge_In. exists e. split; [exact He|].
        left. split; [|reflexivity]. intros w Hw E.
        assert (I : In w (filter (fun w => Db.country w =? Europe.NAME e)
                                 (drop_oecd df)))
          by (apply filter_In; split; [exact Hw|now apply String.eqb_eq]).
        rewrite F in I. exact I.
      - assert (I : In w (filter (fun w => Db.country w =? Europe.NAME e)
                                 (drop_oecd df)))
          by (rewrite F; simpl; auto).
        apply filter_In in I. destruct I as [I E]. apply String.eqb_eq in E.
        exists (Mrg.mk (Some (Db.country w)) (Db.pct_change_2007_2024 w)
                       (Europe.NAME e) (Europe.geometry e)).
        split; [|reflexivity]. apply merge_In. exists e. split; [exact He|].
        right. exists w. auto. }
    apply In_nth_error in H1. destruct H1 as [i Hi].
    destruct (adjusted_nth (crimea admin1 (Layer.crs_of world)) _ _ _ Hi)
      as (r & H & N & _).
    exists r. split; [exact (nth_error_In _ _ H)|congruence]. }
  split.
  { intros r Hr. destruct (Back r Hr) as (r1 & H1 & N & _).
    apply merge_In in H1.
    destruct H1 as (e & He & [[_ ->]|(w & _ & _ & ->)]);
      exists e; (split; [exact He|]); rewrite N; reflexivity. }
  split.
  { intros e He Hno r Hr N.
    destruct (Back r Hr) as (r1 & H1 & N1 & C1 & P1).
    assert (Mrg.country r = None /\ Mrg.pct_change_2007_2024 r = None)
      as [C P].
    { rewrite C1, P1. apply merge_In in H1.
      destruct H1 as (e' & _ & [[_ ->]|(w & Hw & E & ->)]); [split; reflexivity|].
      exfalso. apply filter_In in Hw. destruct Hw as [Hw _].
      apply (Hno w Hw). rewrite E, <- N, N1. reflexivity. }
    split; [exact C|]. split; [exact P|].
    split; [rewrite P; reflexivity|].
    unfold plot. apply in_map_iff. exists r. split; [|exact Hr].
    rewrite P. reflexivity. }
  split; [reflexivity|].
  split.
  { intros w Hw Hno.
    assert (A : forall r, In r final -> Mrg.country r <> Some (Db.country w)).
    { intros r Hr C. destruct (Back r Hr) as (r1 & H1 & N1 & C1 & _).
      apply merge_In in H1.
      destruct H1 as (e & He & [[_ ->]|(w' & _ & E & ->)]);
        rewrite C in C1; simpl in C1; [discriminate|].
      injection C1 as C1. apply (Hno e He). congruence. }
    split; [exact A|].
    intros g p Hp. unfold plot in Hp. apply in_map_iff in Hp.
    destruct Hp as (r & E & Hr). injection E as En _ _.
    destruct (Back r Hr) as (r1 & H1 & N1 & _).
    apply merge_In in H1.
    destruct H1 as (e & He & [[_ ->]|(w' & _ & _ & ->)]);
      apply (Hno e He); rewrite <- En, N1; reflexivity. }
  assert (Kept : forall w, In w df -> Db.country w <> "OECD" ->
                           In w (drop_oecd df)).
  { intros w Hw N. apply filter_In. split; [exact Hw|].
    apply negb_true_iff, String.eqb_neq, N. }
  split.
  { intros e He.
    destruct (filter (fun w => Db.country w =? Europe.NAME e) (drop_oecd df))
      as [|w ws] eqn:F.
    - exists (Mrg.mk None None (Europe.NAME e) (Europe.geometry e)).
      split; [|split; reflexivity]. apply merge_In. exists e.
      split; [exact He|]. left. split; [|reflexivity]. intros w Hw E.
      assert (I : In w (filter (fun w => Db.country w =? Europe.NAME e)
                               (drop_oecd df)))
        by (apply filter_In; split; [exact Hw|now apply String.eqb_eq]).
      rewrite F in I. exact I.
    - assert (I : In w (filter (fun w => Db.country w =? Europe.NAME e)
                               (drop_oecd df)))
        by (rewrite F; simpl; auto).
      apply filter_In in I. destruct I as [I E]. apply String.eqb_eq in E.
      exists (Mrg.mk (Some (Db.country w)) (Db.pct_change_2007_2024 w)
                     (Europe.NAME e) (Europe.geometry e)).
      split; [|split; reflexivity]. apply merge_In. exists e.
      split; [exact He|]. right. exists w. auto. }
  split.
  { intros e w He Hw E N.
    assert (H1 : In (Mrg.mk (Some (Db.country w)) (Db.pct_change_2007_2024 w)
                            (Europe.NAME e) (Europe.geometry e))
                    (merge (drop_oecd df) eu)).
    { apply merge_In. exists e. split; [exact He|]. right. exists w.
      split; [exact (Kept w Hw N)|]. auto. }
    destruct (adjusted_In_back (crimea admin1 (Layer.crs_of world)) _ _ H1)
      as (r & Hr & Nr & Cr & Pr).
    exists r. split; [exact Hr|]. split; [exact Nr|]. split; [exact Cr|].
    split; [exact Pr|].
    unfold plot. apply in_map_iff. exists r. split; [|exact Hr].
    rewrite Pr. reflexivity. }
  split.
  { intros r w Hr C Hw E.
    destruct (string_dec (Db.country w) "OECD") as [O|O]; [exact O|].
    exfalso. destruct (Back r Hr) as (r1 & H1 & N1 & C1 & _).
    apply merge_In in H1.
    destruct H1 as (e & He & [[Hno ->]|(w' & _ & _ & ->)]);
      rewrite C in C1; simpl in C1; [|discriminate].
    apply (Hno w (Kept w Hw O)). rewrite E, N1. reflexivity. }
  split.
  { intros r c Hr C. destruct (Back r Hr) as (r1 & H1 & N1 & C1 & P1).
    apply merge_In in H1.
    destruct H1 as (e & He & [[_ ->]|(w & Hw & E & ->)]);
      rewrite C in C1; simpl in C1; [discriminate|].
    injection C1 as ->. simpl in N1, P1. split; [congruence|].
    exists w. split; [|split; [reflexivity|congruence]].
    unfold drop_oecd in Hw. apply filter_In in Hw. apply Hw. }
  unfold final, df_mrg, df_mrg_merged.
  now rewrite adjusted_names, merge_names_repeat.
Qed.

End MapClaims.

(** On the sample, Norway has a geometry and no wage row: it is drawn with
    [missing_kwds].  Greece has both: its row carries the percentage of the
    wage table. *)
Lemma C8_witness :
  In ("Norway", [70; 71; 72]%Z, Some Map.missing_kwds)
     (Map.plot (Map.df_mrg Sample.wages Sample.world Sample.disputed
                           Sample.admin1)) /\
  exists r,
    In r (Map.df_mrg Sample.wages Sample.world Sample.disputed Sample.admin1) /\
    Mrg.NAME r = "Greece" /\ Mrg.country r = Some "Greece" /\
    Mrg.pct_change_2007_2024 r = Some (- 16.7).
Proof.
  destruct (C8_right_join_keeps_geometries Sample.wages Sample.world
              Sample.disputed Sample.admin1)
    as (_ & _ & H & _ & _ & _ & J & _).
  split.
  - assert (He : In (Europe.mk "Norway" [70; 71; 72]%Z)
                    (Map.europe (Map.unite_cyprus Sample.world Sample.disputed))).
    { vm_compute. auto 10. }
    assert (Hno : forall w, In w Sample.wages ->
                Db.country w <> Europe.NAME (Europe.mk "Norway" [70; 71; 72]%Z)).
    { intros w Hw. simpl in Hw.
      repeat (destruct Hw as [<-|Hw]; [discriminate|]). destruct Hw. }
    assert (Hr : In (Mrg.mk None None "Norway" [70; 71; 72]%Z)
                    (Map.df_mrg Sample.wages Sample.world Sample.disputed
                                Sample.admin1)).
    { vm_compute. auto 10. }
    exact (proj2 (proj2 (proj2 (H _ He Hno _ Hr eq_refl)))).
  - assert (He : In (Europe.mk "Greece" [10; 11; 12]%Z)
                    (Map.europe (Map.unite_cyprus Sample.world Sample.disputed))).
    { vm_compute. auto 10. }
    assert (Hw : In (Db.mkRow "Greece" (Some 15.2) (Some 12.7) (Some (- 16.7)))
                    Sample.wages).
    { simpl. auto. }
    destruct (J _ _ He Hw eq_refl) as (r & Hr & N & C & P & _);
      [discriminate|].
    exists r. auto.
Defined.

(** On the sample, the row of Norway keeps its geometry through the three
    adjustments. *)
Lemma C10_witness :
  exists r,
    nth_error (Map.df_mrg Sample.wages Sample.world Sample.disputed
                          Sample.admin1) 4 = Some r /\
    Mrg.geometry r = [70; 71; 72]%Z.
Proof.
  destruct (C10_adjustments_touch_geometry_only Sample.wages Sample.world
              Sample.disputed Sample.admin1) as (_ & H & _).
  destruct (H 4%nat (Mrg.mk None None "Norway" [70; 71; 72]%Z) eq_refl)
    as (r & Hn & _ & _ & _ & G).
  exists r. split; [exact Hn|].
  rewrite G by discriminate. reflexivity.
Defined.

(* ------------------------------------------------------------------------ *)
(** ** More on the bar chart *)

Section PrepareFacts.
Import Pandas Db Barchart.

Lemma rename_country_cases (r : row) :
  (country r = "OECD" /\ country (rename r) = "OECD average") \/
  (country r <> "OECD" /\ rename r = r).
Proof.
  unfold rename, replace_cell. cbn [country].
  destruct (country r =? "OECD") eqn:E.
  - left. apply String.eqb_eq in E. auto.
  - right. apply String.eqb_neq in E. split; [exact E|]. now destruct r.
Qed.

Lemma rename_rename (r : row) : rename (rename r) = rename r.
Proof.
  destruct (rename_country_cases (rename r)) as [[E _]|[_ E]]; [|exact E].
  exfalso. destruct (rename_country_cases r) as [[_ A]|[N A]].
  - rewrite A in E. discriminate.
  - rewrite A in E. exact (N E).
Qed.

Lemma isin_rename (r : row) :
  isin (country (rename r)) not_in_usd = isin (country r) not_in_usd.
Proof.
  destruct (rename_country_cases r) as [[E ->]|[_ ->]]; [|reflexivity].
  rewrite E. reflexivity.
Qed.

Lemma exclude_map_rename (l : list row) :
  exclude (map rename l) = map rename (exclude l).
Proof.
  unfold exclude. induction l as [|r l IH]; [reflexivity|].
  cbn [map filter]. rewrite isin_rename.
  destruct (isin (country r) not_in_usd); cbn [negb map]; now rewrite IH.
Qed.

Lemma exclude_exclude (l : list row) : exclude (exclude l) = exclude l.
Proof.
  unfold exclude. induction l as [|r l IH]; [reflexivity|].
  cbn [filter]. destruct (negb (isin (country r) not_in_usd)) eqn:E.
  - cbn [filter]. now rewrite E, IH.
  - exact IH.
Qed.

(** X1.  Preparing a prepared frame changes nothing: the rows of the three
    countries are gone and no country is "OECD" any more. *)
Theorem prepare_idempotent (df : list row) :
  prepare (prepare df) = prepare df.
Proof.
  unfold prepare. rewrite exclude_map_rename, exclude_exclude, map_map.
  apply map_ext, rename_rename.
Qed.

(** The countries of a prepared frame. *)
Lemma prepare_country (df : list row) (r : row) :
  In r (prepare df) ->
  ~ In (country r) not_in_usd /\ country r <> "OECD".
Proof.
  unfold prepare. rewrite in_map_iff. intros (r0 & <- & H0).
  unfold exclude in H0. apply filter_In in H0. destruct H0 as [_ H0].
  apply negb_true_iff in H0.
  split.
  - intro I. apply isin_In in I. rewrite isin_rename in I. congruence.
  - destruct (rename_country_cases r0) as [[_ ->]|[N ->]];
      [discriminate|exact N].
Qed.

End PrepareFacts.

Section ChartFacts.
Import Num Pandas Db Barchart.
Context {color : Type} (cmap : option Q -> color).

(** Both lists of bars, spelled out. *)
Lemma chart_eq (e : engine) :
  let df := prepare (load e) in
  chart cmap e =
  Ok (map (fun r => mkBar (country r) (hw_2007 r)
                      (cmap (normalized
                               (series_min (map hw_2007 (sort_values hw_2007 df)))
                               (series_max (map hw_2007 (sort_values hw_2007 df)))
                               (hw_2007 r))))
          (sort_values hw_2007 df),
      map (fun r => mkBar (country r) (hw_2024 r)
                      (cmap (normalized
                               (series_min (map hw_2024 (sort_values hw_2024 df)))
                               (series_max (map hw_2024 (sort_values hw_2024 df)))
                               (hw_2024 r))))
          (sort_values hw_2024 df)).
Proof.
  intro df. unfold chart. fold df.
  now rewrite (bars1_by cmap), (bars2_by cmap), !bars_by_eq.
Qed.

(** X2.  The chart never shows Bulgaria, Romania or Croatia, and never shows the
    name "OECD": on either side, no bar carries one of these names. *)
Theorem chart_never_shows (e : engine) :
  exists b1 b2, chart cmap e = Ok (b1, b2) /\
    forall b, In b b1 \/ In b b2 ->
      bar_y b <> "Bulgaria" /\ bar_y b <> "Romania" /\
      bar_y b <> "Croatia" /\ bar_y b <> "OECD".
Proof.
  rewrite chart_eq. do 2 eexists. split; [reflexivity|].
  assert (K : forall r, In r (prepare (load e)) ->
                country r <> "Bulgaria" /\ country r <> "Romania" /\
                country r <> "Croatia" /\ country r <> "OECD").
  { intros r Hr. destruct (prepare_country _ _ Hr) as [N O].
    unfold not_in_usd in N. simpl in N.
    repeat split; try exact O; intro E; apply N; rewrite E; auto. }
  intros b [Hb|Hb]; apply in_map_iff in Hb; destruct Hb as (r & <- & Hr);
    cbn [bar_y]; apply K.
  - exact (Permutation_in _ (Permutation_sym (sort_values_perm hw_2007 _)) Hr).
  - exact (Permutation_in _ (Permutation_sym (sort_values_perm hw_2024 _)) Hr).
Qed.

(** X3.  The two sides of the chart show the same countries, each as often as the
    prepared frame has it: the names on the right are a permutation of the
    names on the left, and each side has one bar per prepared row. *)
Theorem chart_sides_agree (e : engine) :
  exists b1 b2, chart cmap e = Ok (b1, b2) /\
    Permutation (map bar_y b1) (map bar_y b2) /\
    Permutation (map bar_y b1) (map country (prepare (load e))) /\
    List.length b1 = List.length (prepare (load e)) /\
    List.length b2 = List.length (prepare (load e)).
Proof.
  rewrite chart_eq. do 2 eexists. split; [reflexivity|].
  rewrite !map_map. cbn [bar_y]. rewrite !length_map.
  pose proof (sort_values_perm hw_2007 (prepare (load e))) as P7.
  pose proof (sort_values_perm hw_2024 (prepare (load e))) as P4.
  repeat split.
  - apply Permutation_map. eapply perm_trans; [apply Permutation_sym, P7|exact P4].
  - apply Permutation_map, Permutation_sym, P7.
  - symmetry. apply Permutation_length, P7.
  - symmetry. apply Permutation_length, P4.
Qed.

End ChartFacts.

Section NormalizeFacts.
Import Num Pandas Db Barchart.

(** A column that holds a number has a minimum and a maximum. *)
Lemma series_bounds (s : list (option Q)) (v : Q) :
  In (Some v) s ->
  exists lo hi, series_min s = Some lo /\ series_max s = Some hi /\
                lo <= v <= hi.
Proof.
  intro H.
  pose proof (fold_min_spec s None) as Smin. fold (series_min s) in Smin.
  pose proof (fold_max_spec s None) as Smax. fold (series_max s) in Smax.
  destruct (series_min s) as [lo|]; [|destruct Smin as [_ N]; destruct (N v H)].
  destruct (series_max s) as [hi|]; [|destruct Smax as [_ N]; destruct (N v H)].
  exists lo, hi. repeat split.
  - apply Smin, H.
  - apply Smax, H.
Qed.

Lemma Normalize_unit (s : list (option Q)) (v : Q) :
  In (Some v) s ->
  exists t, Normalize (series_min s) (series_max s) (Some v) = Ok (Some t)
            /\ 0 <= t <= 1.
Proof.
  intro H. rewrite Normalize_series.
  destruct (series_bounds s v H) as (lo & hi & -> & -> & L & U).
  unfold normalized. destruct (Qeq_bool lo hi) eqn:E.
  - exists 0. split; [reflexivity|]. split; [apply Qle_refl|discriminate].
  - assert (D : 0 < hi - lo).
    { destruct (Qlt_le_dec lo hi) as [A|A]; [lra|].
      assert (lo == hi) by lra. apply Qeq_bool_iff in H0. congruence. }
    eexists. split; [reflexivity|]. split.
    + apply Qle_shift_div_l; [exact D|]. lra.
    + apply Qle_shift_div_r; [exact D|]. lra.
Qed.

Lemma Normalize_monotone (s : list (option Q)) (v w : Q) :
  In (Some v) s -> In (Some w) s -> v <= w ->
  exists t u,
    Normalize (series_min s) (series_max s) (Some v) = Ok (Some t) /\
    Normalize (series_min s) (series_max s) (Some w) = Ok (Some u) /\
    t <= u.
Proof.
  intros Hv Hw L. rewrite !Normalize_series.
  destruct (series_bounds s v Hv) as (lo & hi & -> & -> & Lv & Uv).
  unfold normalized. destruct (Qeq_bool lo hi) eqn:E.
  - exists 0, 0. repeat split. apply Qle_refl.
  - do 2 eexists. split; [reflexivity|]. split; [reflexivity|].
    destruct (series_bounds s w Hw) as (lo' & hi' & A & B & Lw & Uw).
    assert (D : 0 < hi - lo).
    { destruct (Qlt_le_dec lo hi) as [C|C]; [lra|].
      assert (lo == hi) by lra. apply Qeq_bool_iff in H. congruence. }
    unfold Qdiv. apply Qmult_le_compat_r; [lra|].
    apply Qinv_le_0_compat. lra.
Qed.

Lemma column_In {row : Type} (by_ : row -> option Q) (df : list row)
  (r : row) (v : Q) :
  In r df -> by_ r = Some v -> In (Some v) (map by_ (sort_values by_ df)).
Proof.
  intros Hr Hv. rewrite <- Hv. apply in_map.
  exact (Permutation_in _ (sort_values_perm by_ df) Hr).
Qed.

(** X4.  Every wage of a column is normalized to a number between 0 and 1, so
    the colormap is only ever asked for values of its range. *)
Theorem norm_within_unit (df : list row) :
  (forall r v, In r df -> hw_2007 r = Some v ->
     exists t, norm_2007 df (Some v) = Ok (Some t) /\ 0 <= t <= 1) /\
  (forall r v, In r df -> hw_2024 r = Some v ->
     exists t, norm_2024 df (Some v) = Ok (Some t) /\ 0 <= t <= 1).
Proof.
  split; intros r v Hr Hv.
  - apply Normalize_unit, (column_In hw_2007 df r v Hr Hv).
  - apply Normalize_unit, (column_In hw_2024 df r v Hr Hv).
Qed.

(** X5.  Within a column, a higher wage never gets a lower normalized value: the
    colour gradient follows the order of the wages. *)
Theorem norm_monotone (df : list row) :
  (forall r r' v w, In r df -> In r' df ->
     hw_2007 r = Some v -> hw_2007 r' = Some w -> v <= w ->
     exists t u, norm_2007 df (Some v) = Ok (Some t) /\
                 norm_2007 df (Some w) = Ok (Some u) /\ t <= u) /\
  (forall r r' v w, In r df -> In r' df ->
     hw_2024 r = Some v -> hw_2024 r' = Some w -> v <= w ->
     exists t u, norm_2024 df (Some v) = Ok (Some t) /\
                 norm_2024 df (Some w) = Ok (Some u) /\ t <= u).
Proof.
  split; intros r r' v w Hr Hr' Hv Hw L.
  - apply Normalize_monotone;
      [apply (column_In hw_2007 df r v Hr Hv)
      |apply (column_In hw_2007 df r' w Hr' Hw)|exact L].
  - apply Normalize_monotone;
      [apply (column_In hw_2024 df r v Hr Hv)
      |apply (column_In hw_2024 df r' w Hr' Hw)|exact L].
Qed.

End NormalizeFacts.

(* ------------------------------------------------------------------------ *)
(** ** The wage printed beside a bar *)

Section BarTexts.
Import Num Pandas Db Barchart.

Lemma inject_Z_succ (f : Z) : inject_Z (f + 1) == inject_Z f + 1.
Proof. rewrite inject_Z_plus. reflexivity. Qed.

Lemma floor_bounds (t : Q) : inject_Z (Qfloor t) <= t /\ t < inject_Z (Qfloor t) + 1.
Proof.
  split; [apply Qfloor_le|].
  rewrite <- inject_Z_succ. apply Qlt_floor.
Qed.

(** Rounding moves a number by at most one half. *)
Lemma round_half_even_near (t : Q) :
  - (1 # 2) <= inject_Z (round_half_even t) - t <= 1 # 2.
Proof.
  unfold round_half_even.
  destruct (floor_bounds t) as [L U].
  destruct (Qlt_bool (t - inject_Z (Qfloor t)) (1 # 2)) eqn:A.
  - apply Qlt_bool_iff in A. lra.
  - apply Qlt_bool_false_iff in A.
    destruct (Qlt_bool (1 # 2) (t - inject_Z (Qfloor t))) eqn:B.
    + rewrite inject_Z_succ. lra.
    + apply Qlt_bool_false_iff in B.
      destruct (Z.even (Qfloor t)); [lra|]. rewrite inject_Z_succ. lra.
Qed.

Lemma round_half_even_floor (t : Q) :
  (Qfloor t <= round_half_even t <= Qfloor t + 1)%Z.
Proof.
  unfold round_half_even.
  destruct (Qlt_bool _ _); [lia|].
  destruct (Qlt_bool _ _); [lia|].
  destruct (Z.even _); lia.
Qed.

Lemma round_half_even_monotone (t u : Q) :
  t <= u -> (round_half_even t <= round_half_even u)%Z.
Proof.
  intro L. pose proof (Qfloor_resp_le _ _ L) as F.
  destruct (Z.eq_dec (Qfloor t) (Qfloor u)) as [E|N].
  - unfold round_half_even. rewrite <- E.
    set (f := Qfloor t).
    destruct (Qlt_bool (t - inject_Z f) (1 # 2)) eqn:A.
    + destruct (Qlt_bool (u - inject_Z f) (1 # 2)); [lia|].
      destruct (Qlt_bool (1 # 2) (u - inject_Z f)); [lia|].
      destruct (Z.even f); lia.
    + apply Qlt_bool_false_iff in A.
      assert (A' : Qlt_bool (u - inject_Z f) (1 # 2) = false)
        by (apply Qlt_bool_false_iff; lra).
      rewrite A'.
      destruct (Qlt_bool (1 # 2) (t - inject_Z f)) eqn:B.
      * apply Qlt_bool_iff in B.
        assert (B' : Qlt_bool (1 # 2) (u - inject_Z f) = true)
          by (apply Qlt_bool_iff; lra).
        rewrite B'. lia.
      * destruct (Qlt_bool (1 # 2) (u - inject_Z f)); [destruct (Z.even f); lia|].
        lia.
  - pose proof (round_half_even_floor t). pose proof (round_half_even_floor u).
    lia.
Qed.

(** The rounded number of tenths is within 0.05 of the number. *)
Lemma tenths_near (x : Q) :
  - (1 # 20) <= inject_Z (tenths x) / 10 - x <= 1 # 20.
Proof.
  unfold tenths. pose proof (round_half_even_near (x * 10)) as H.
  set (n := inject_Z (round_half_even (x * 10))) in *.
  assert (E : n / 10 - x == (n - x * 10) / 10) by (field; discriminate).
  rewrite E. split.
  - apply Qle_shift_div_l; [reflexivity|]. lra.
  - apply Qle_shift_div_r; [reflexivity|]. lra.
Qed.

Lemma tenths_monotone (x y : Q) : x <= y -> (tenths x <= tenths y)%Z.
Proof. intro L. unfold tenths. apply round_half_even_monotone. lra. Qed.

Lemma digits_small (n : nat) :
  (n < 10)%nat -> digits n = String (ascii_of_nat (48 + n)) "".
Proof.
  intro H. do 10 (destruct n as [|n]; [reflexivity|]). lia.
Qed.

Lemma read_digits (n : nat) : read_nat (digits n) = Some n.
Proof.
  unfold read_nat, digits.
  destruct (Nat.to_uint n) as [| | | | | | | | | |] eqn:E;
    try (rewrite DecimalString.NilZero.usu by discriminate;
         cbn [option_map]; rewrite <- E, DecimalNat.Unsigned.of_to;
         reflexivity).
  pose proof (DecimalNat.Unsigned.of_to n) as H. rewrite E in H.
  simpl in H. subst n. discriminate E.
Qed.

Lemma split_point_uint (d : Decimal.uint) (r : string) :
  split_point (DecimalString.NilEmpty.string_of_uint d ++ String "." r)
  = Some (DecimalString.NilEmpty.string_of_uint d, r).
Proof.
  induction d; cbn [DecimalString.NilEmpty.string_of_uint append split_point];
    try reflexivity; rewrite IHd; reflexivity.
Qed.

Lemma split_point_digits (n : nat) (r : string) :
  split_point (digits n ++ String "." r) = Some (digits n, r).
Proof.
  unfold digits, DecimalString.NilZero.string_of_uint.
  destruct (Nat.to_uint n); try apply split_point_uint. reflexivity.
Qed.

(** Digits, a point and one digit denote the number they spell. *)
Lemma unsigned_value_digits (a f : nat) :
  (f < 10)%nat ->
  unsigned_value (digits a ++ String "." (digits f))
  = Some (inject_Z (Z.of_nat a) + inject_Z (Z.of_nat f) / 10).
Proof.
  intro H. unfold unsigned_value.
  rewrite split_point_digits, !read_digits, (digits_small f H). reflexivity.
Qed.

Lemma digits_head (n : nat) (r : string) :
  exists c t, digits n ++ r = String c t /\ Ascii.eqb c "-" = false.
Proof.
  unfold digits, DecimalString.NilZero.string_of_uint.
  destruct (Nat.to_uint n); cbn [DecimalString.NilEmpty.string_of_uint append];
    eauto.
Qed.

Lemma tenths_sign (x : Q) :
  (x < 0 -> (tenths x <= 0)%Z) /\ (0 <= x -> (0 <= tenths x)%Z).
Proof.
  split; intro H.
  - change 0%Z with (tenths 0). apply tenths_monotone. lra.
  - change 0%Z with (tenths 0). apply tenths_monotone, H.
Qed.

(** The printed text denotes the rounded number of tenths, over ten. *)
Lemma format_1f_value (x : Q) :
  exists q, decimal_value (format_1f (Some x)) = Some q /\
            q == inject_Z (tenths x) / 10.
Proof.
  unfold format_1f.
  set (n := Z.abs (tenths x)).
  assert (Hf : (Z.to_nat (n mod 10) < 10)%nat)
    by (pose proof (Z.mod_pos_bound n 10); lia).
  assert (V : inject_Z (Z.of_nat (Z.to_nat (n / 10)))
              + inject_Z (Z.of_nat (Z.to_nat (n mod 10))) / 10
              == inject_Z n / 10).
  { rewrite !Z2Nat.id
      by (try apply Z.div_pos; try apply Z.mod_pos_bound; unfold n; lia).
    rewrite (Z.div_mod n 10) at 3 by lia.
    rewrite inject_Z_plus, inject_Z_mult. field. }
  assert (F : forall sign : string,
            sign ++ digits (Z.to_nat (n / 10)) ++ "."
                 ++ digits (Z.to_nat (n mod 10))
            = sign ++ digits (Z.to_nat (n / 10))
                   ++ String "." (digits (Z.to_nat (n mod 10))))
    by reflexivity.
  rewrite F. clear F.
  destruct (Qlt_bool x 0) eqn:S.
  - apply Qlt_bool_iff in S.
    change (decimal_value
              ("-" ++ digits (Z.to_nat (n / 10))
                   ++ String "." (digits (Z.to_nat (n mod 10)))))
      with (option_map Qopp
              (unsigned_value
                 (digits (Z.to_nat (n / 10))
                    ++ String "." (digits (Z.to_nat (n mod 10)))))).
    rewrite (unsigned_value_digits _ _ Hf). cbn [option_map].
    eexists. split; [reflexivity|]. rewrite V. unfold n.
    pose proof (proj1 (tenths_sign x) S) as T.
    rewrite Z.abs_neq by exact T. rewrite inject_Z_opp. field.
  - apply Qlt_bool_false_iff in S.
    change ("" ++ digits (Z.to_nat (n / 10))
               ++ String "." (digits (Z.to_nat (n mod 10))))
      with (digits (Z.to_nat (n / 10))
              ++ String "." (digits (Z.to_nat (n mod 10)))).
    destruct (digits_head (Z.to_nat (n / 10))
                (String "." (digits (Z.to_nat (n mod 10)))))
      as (c & t & E & D).
    unfold decimal_value. rewrite E, D, <- E.
    rewrite (unsigned_value_digits _ _ Hf).
    eexists. split; [reflexivity|]. rewrite V. unfold n.
    rewrite Z.abs_eq by (apply tenths_sign, S). reflexivity.
Qed.

(** X6.  Beside every bar that has a width the loops write a text that
    denotes a number within 0.05 of the width, the width in [.1f] format;
    and of two bars of one side, the wider one never gets the text of the
    lower number.  A missing width is written as nan. *)
Theorem printed_wage_near {color : Type} (ha : string)
  (bs : list (bar (color:=color))) (i : nat) (b : bar (color:=color)) (x : Q) :
  nth_error bs i = Some b -> bar_width b = Some x ->
  format_1f None = "nan" /\
  exists t q,
    nth_error (bar_texts ha bs) i = Some t /\
    text_s t = format_1f (Some x) /\
    decimal_value (text_s t) = Some q /\
    - (1 # 20) <= q - x <= 1 # 20 /\
    forall j b' y t' q',
      nth_error bs j = Some b' -> bar_width b' = Some y ->
      nth_error (bar_texts ha bs) j = Some t' ->
      decimal_value (text_s t') = Some q' ->
      x <= y -> q <= q'.
Proof.
  intros Hb Hx. split; [reflexivity|].
  destruct (format_1f_value x) as (q & Hq & Eq).
  eexists. exists q. split; [apply map_nth_error, Hb|].
  cbn [text_s]. rewrite Hx. split; [reflexivity|]. split; [exact Hq|].
  split.
  - pose proof (tenths_near x) as T.
    assert (E : q - x == inject_Z (tenths x) / 10 - x) by (rewrite Eq; reflexivity).
    rewrite E. exact T.
  - intros j b' y t' q' Hb' Hy Ht' Hq' L.
    unfold bar_texts in Ht'. rewrite (map_nth_error _ _ _ Hb') in Ht'.
    injection Ht' as <-. cbn [text_s] in Hq'. rewrite Hy in Hq'.
    destruct (format_1f_value y) as (q2 & Hq2 & Eq2).
    assert (q2 = q') by congruence. subst q2.
    rewrite Eq, Eq2. unfold Qdiv. apply Qmult_le_compat_r; [|discriminate].
    rewrite <- Zle_Qle. apply tenths_monotone, L.
Qed.

Lemma first_seen_NoDup (ys : list string) : NoDup ys -> first_seen ys = ys.
Proof.
  induction 1 as [|y ys Hn N IH]; [reflexivity|].
  cbn [first_seen]. rewrite IH. f_equal.
  clear IH N. induction ys as [|z ys IH]; [reflexivity|].
  cbn [filter]. destruct (z =? y) eqn:E.
  - apply String.eqb_eq in E. subst. exfalso. apply Hn. simpl; auto.
  - cbn [negb]. f_equal. apply IH. intro H. apply Hn. simpl; auto.
Qed.

Lemma index_nth (ys : list string) (i : nat) (y : string) :
  NoDup ys -> nth_error ys i = Some y -> index ys y = i.
Proof.
  intro N. revert i. induction N as [|y0 ys Hn N IH]; intros i H.
  - destruct i; discriminate.
  - destruct i as [|i]; simpl in *.
    + injection H as ->. now rewrite String.eqb_refl.
    + destruct (y =? y0) eqn:E.
      * apply String.eqb_eq in E. subst. apply nth_error_In in H. contradiction.
      * f_equal. apply IH, H.
Qed.

Lemma position_nth (ys : list string) (i : nat) (y : string) :
  NoDup ys -> nth_error ys i = Some y -> position ys y = i.
Proof.
  intros N H. unfold position. rewrite (first_seen_NoDup ys N).
  apply index_nth; assumption.
Qed.

(** X7.  When the bars of one side carry distinct names, the loop writes one text
    per bar, in order: the text of bar number [i] is the wage in [.1f]
    format, set 0.5 beyond the end of the bar, at height [i], which is the
    middle of that bar. *)
Theorem bar_texts_placed {color : Type} (ha : string)
  (bs : list (bar (color:=color))) :
  NoDup (map bar_y bs) ->
  List.length (bar_texts ha bs) = List.length bs /\
  forall i b, nth_error bs i = Some b ->
    exists t, nth_error (bar_texts ha bs) i = Some t /\
      text_s t = format_1f (bar_width b) /\
      text_x t = option_map (fun width => width + 0.5) (bar_width b) /\
      text_y t == inject_Z (Z.of_nat i) /\
      get_y bs b == inject_Z (Z.of_nat i) - 0.4 /\
      text_ha t = ha.
Proof.
  intro N. split; [apply length_map|].
  intros i b Hb. eexists. split; [apply map_nth_error, Hb|].
  cbn [text_s text_x text_y text_ha].
  assert (P : position (map bar_y bs) (bar_y b) = i)
    by (apply position_nth; [exact N|apply map_nth_error, Hb]).
  unfold get_y, bar_height. rewrite P.
  repeat split; field.
Qed.

End BarTexts.

(* ------------------------------------------------------------------------ *)
(** ** Bins, colours and the legend of the map *)

Section Colours.
Import Num Pandas Map.

(** Splits on the comparisons of [v] with the thresholds and turns each into
    an inequality. *)
Ltac split_bins v :=
  repeat match goal with
    | |- context [Qle_bool v ?b] =>
        let E := fresh "L" in
        destruct (Qle_bool v b) eqn:E;
        [apply Qle_bool_iff in E
        | let G := fresh "G" in
          assert (G : b < v)
            by (apply Qnot_le_lt; intro G; apply Qle_bool_iff in G; congruence);
          clear E]
    end.

(** Finds, among the eight handles, the one with the wanted colour and
    label. *)
Ltac handle_after skip :=
  solve [split; [skip; left; reflexivity | split; reflexivity]].

Ltac find_handle :=
  first [ handle_after idtac
        | handle_after ltac:(right)
        | handle_after ltac:(do 2 right)
        | handle_after ltac:(do 3 right)
        | handle_after ltac:(do 4 right)
        | handle_after ltac:(do 5 right)
        | handle_after ltac:(do 6 right)
        | handle_after ltac:(do 7 right) ].

(** X8.  Binning keeps the order: of two percentage changes, the larger one never
    falls in an earlier bin. *)
Theorem change_bins_monotone (v w : Q) :
  v <= w ->
  exists lv lw i j,
    change_bins (Some v) = Some lv /\ change_bins (Some w) = Some lw /\
    code lv categories = Some i /\ code lw categories = Some j /\
    (i <= j)%nat.
Proof.
  intro L. rewrite !change_bins_cases.
  split_bins v; split_bins w; try (exfalso; lra);
    do 4 eexists; (split; [reflexivity|]); (split; [reflexivity|]);
    (split; [reflexivity|]); (split; [reflexivity|]); lia.
Qed.

(** X9.  Every row of the merged frame is drawn.  A row without percentage gets
    the lightgrey patch; a change of 0 or less gets darksalmon, and a
    positive change gets an entry of the six-colour YlGnBu map, the entry
    before its bin's category code. *)
Theorem every_row_is_drawn (pct : option Q) :
  exists p, draw (change_bins pct) = Some p /\
    (pct = None -> p = missing_kwds) /\
    forall v, pct = Some v ->
      edgecolor p = "lightgrey" /\
      (v <= 0 -> facecolor p = Named "darksalmon") /\
      (0 < v -> exists l i,
         change_bins pct = Some l /\ code l categories = Some (S i) /\
         (i < 6)%nat /\ facecolor p = Sampled "YlGnBu" 6 i).
Proof.
  destruct pct as [v|].
  - rewrite change_bins_cases.
    split_bins v; eexists; (split; [reflexivity|]);
      (split; [discriminate|]); intros v' [= <-]; (split; [reflexivity|]);
      (split; [intro; try reflexivity; exfalso; lra|]);
      intro; try (exfalso; lra);
      do 2 eexists; (split; [reflexivity|]); (split; [reflexivity|]);
      (split; [lia|reflexivity]).
  - exists missing_kwds. split; [reflexivity|]. split; [reflexivity|].
    intros v [=].
Qed.

(** X10.  The hand-made legend is built without index error, lists the bins from
    the highest down and then "No data", and agrees with the map: whatever
    the percentage of a row, the legend has a handle with the face colour
    the row is drawn in, labelled with the row's bin, or with "No data" when
    the row has none. *)
Theorem legend_matches_map :
  exists hs, legend_handles = Some hs /\
    map handle_label hs = (rev labels ++ ["No data"])%list /\
    forall pct : option Q,
      exists p h, draw (change_bins pct) = Some p /\ In h hs /\
        handle_facecolor h = facecolor p /\
        handle_label h = match change_bins pct with
                         | Some l => l
                         | None => "No data"
                         end.
Proof.
  eexists. split; [vm_compute; reflexivity|]. split; [reflexivity|].
  intros [v|].
  - rewrite change_bins_cases.
    split_bins v; do 2 eexists; (split; [reflexivity|]); find_handle.
  - do 2 eexists. split; [reflexivity|]. find_handle.
Qed.

End Colours.

(* ------------------------------------------------------------------------ *)
(** ** More on the merged frame *)

Section MergedFrame.
Import Pandas Shapely Map.
Context {geom point crs : Type} {shapely : Ops geom point crs}.

Lemma set_of_In (l : list string) (c : string) : In c (set_of l) <-> In c l.
Proof. unfold set_of. apply nodup_In. Qed.

(** The set printed as "only in df" holds each country once, and a country
    is in it exactly when a row of [df] has it and no row of [europe] is
    named so. *)
Theorem df_only_spec (df : list Db.row) (europe : list (Europe.row geom)) :
  NoDup (df_only df europe) /\
  forall c, In c (df_only df europe) <->
    (exists w, In w df /\ Db.country w = c) /\
    (forall e, In e europe -> Europe.NAME e <> c).
Proof.
  unfold df_only, df_countries, natural_countries. split.
  - apply NoDup_filter. unfold set_of. apply NoDup_nodup.
  - intro c. rewrite filter_In, set_of_In, in_map_iff, negb_true_iff.
    assert (E : isin c (set_of (map Europe.NAME europe)) = false <->
                forall e, In e europe -> Europe.NAME e <> c).
    { split.
      - intros F e He N.
        assert (I : isin c (set_of (map Europe.NAME europe)) = true).
        { apply isin_In, set_of_In. rewrite <- N. now apply in_map. }
        congruence.
      - intro H. destruct (isin c _) eqn:I; [|reflexivity].
        apply isin_In, set_of_In, in_map_iff in I.
        destruct I as (e & N & He). destruct (H e He N). }
    rewrite E. split; intros [(w & A & B) H]; (split; [|exact H]);
      exists w; auto.
Qed.

(** The rows of the merged frame that carry a country. *)
Lemma merge_country (df : list Db.row) (europe : list (Europe.row geom))
  (c : string) :
  (exists r, In r (merge df europe) /\ Mrg.country r = Some c) <->
  (exists w e, In w df /\ In e europe /\ Db.country w = c /\ Europe.NAME e = c).
Proof.
  split.
  - intros (r & Hr & C). apply merge_In in Hr.
    destruct Hr as (e & He & [[_ ->]|(w & Hw & E & ->)]); simpl in C;
      [discriminate|].
    injection C as C. exists w, e. repeat split; congruence.
  - intros (w & e & Hw & He & C & N).
    exists (Mrg.mk (Some (Db.country w)) (Db.pct_change_2007_2024 w)
                   (Europe.NAME e) (Europe.geometry e)).
    split; [|simpl; congruence].
    apply merge_In. exists e. split; [exact He|]. right. exists w.
    repeat split; congruence.
Qed.

(** X11.  What the script prints as "only in df" is exactly the list of the wage
    countries that the map loses: a country of the wage table, the OECD
    aggregate apart, is printed if and only if no row of the plotted frame
    carries it. *)
Theorem df_only_is_what_the_map_loses (df : list Db.row)
  (world : Layer.t crs (World.row geom))
  (disputed : Layer.t crs (Disputed.row geom))
  (admin1 : Layer.t crs (Admin1.row geom)) (w : Db.row) :
  In w (drop_oecd df) ->
  (In (Db.country w)
      (df_only (drop_oecd df) (europe (unite_cyprus world disputed))) <->
   forall r, In r (df_mrg df world disputed admin1) ->
             Mrg.country r <> Some (Db.country w)).
Proof.
  intro Hw. destruct (df_only_spec (drop_oecd df)
                        (europe (unite_cyprus world disputed))) as [_ S].
  rewrite S. unfold df_mrg, df_mrg_merged. split.
  - intros [_ H] r Hr C. apply adjusted_In in Hr.
    destruct Hr as (r1 & H1 & _ & C1 & _). rewrite C in C1.
    destruct (proj1 (merge_country (drop_oecd df)
                       (europe (unite_cyprus world disputed)) (Db.country w)))
      as (w' & e & _ & He & _ & N); [exists r1; split; [exact H1|now symmetry]|].
    exact (H e He N).
  - intro H. split; [exists w; auto|]. intros e He N.
    destruct (proj2 (merge_country (drop_oecd df)
                       (europe (unite_cyprus world disputed)) (Db.country w)))
      as (r1 & H1 & C1); [exists w, e; auto|].
    destruct (adjusted_In_back (crimea admin1 (Layer.crs_of world)) _ _ H1)
      as (r & Hr & _ & C & _).
    apply (H r Hr). congruence.
Qed.

(** X12.  The OECD aggregate is never on the map: no row of the plotted frame
    carries the country "OECD", whatever the layers hold. *)
Theorem oecd_never_on_map (df : list Db.row)
  (world : Layer.t crs (World.row geom))
  (disputed : Layer.t crs (Disputed.row geom))
  (admin1 : Layer.t crs (Admin1.row geom)) :
  forall r, In r (df_mrg df world disputed admin1) ->
            Mrg.country r <> Some "OECD".
Proof.
  intros r Hr C. unfold df_mrg, df_mrg_merged in Hr. apply adjusted_In in Hr.
  destruct Hr as (r1 & H1 & _ & C1 & _). rewrite C in C1.
  destruct (proj1 (merge_country (drop_oecd df)
                     (europe (unite_cyprus world disputed)) "OECD"))
    as (w & _ & Hw & _ & E & _); [exists r1; split; [exact H1|now symmetry]|].
  unfold drop_oecd in Hw. apply filter_In in Hw. destruct Hw as [_ Hw].
  apply negb_true_iff, String.eqb_neq in Hw. exact (Hw E).
Qed.

End MergedFrame.

Section OneRowPerGeometry.
Import Pandas Shapely Map.
Context {geom point crs : Type} {shapely : Ops geom point crs}.

Lemma unique_country_filter (df : list Db.row) (n : string) :
  NoDup (map Db.country df) ->
  (List.length (filter (fun w => (Db.country w =? n)%string) df) <= 1)%nat.
Proof.
  induction df as [|w df IH]; intro N; [simpl; lia|].
  cbn [map] in N. apply NoDup_cons_iff in N. destruct N as [Nw N].
  cbn [filter]. destruct (Db.country w =? n) eqn:E; [|apply IH, N].
  apply String.eqb_eq in E. cbn [List.length].
  destruct (filter (fun w => Db.country w =? n) df) as [|w' l] eqn:F;
    [simpl; lia|].
  exfalso. apply Nw.
  assert (I : In w' (filter (fun w => Db.country w =? n) df))
    by (rewrite F; simpl; auto).
  apply filter_In in I. destruct I as [I E']. apply String.eqb_eq in E'.
  rewrite E, <- E'. now apply in_map.
Qed.

Lemma unique_country_drop_oecd (df : list Db.row) :
  NoDup (map Db.country df) -> NoDup (map Db.country (drop_oecd df)).
Proof.
  unfold drop_oecd. induction df as [|w df IH]; intro N; [constructor|].
  cbn [map] in N. apply NoDup_cons_iff in N. destruct N as [Nw N].
  cbn [filter]. destruct (negb (Db.country w =? "OECD")); [|apply IH, N].
  cbn [map]. constructor; [|apply IH, N].
  intro I. apply Nw. apply in_map_iff in I. destruct I as (w' & E & I).
  apply filter_In in I. rewrite <- E. apply in_map, I.
Qed.

Lemma merge_names (df : list Db.row) (eu : list (Europe.row geom)) :
  NoDup (map Db.country df) ->
  map Mrg.NAME (merge df eu) = map Europe.NAME eu.
Proof.
  intro N. induction eu as [|e eu IH]; [reflexivity|].
  rewrite merge_cons, map_app, IH. cbn [map]. unfold merge. cbn [flat_map].
  rewrite app_nil_r.
  pose proof (unique_country_filter df (Europe.NAME e) N) as L.
  destruct (filter (fun w => Db.country w =? Europe.NAME e) df) as [|w [|w' l]];
    [reflexivity|reflexivity|simpl in L; lia].
Qed.

Lemma europe_names (world : Layer.t crs (World.row geom))
  (disputed : Layer.t crs (Disputed.row geom)) :
  map Europe.NAME (europe (unite_cyprus world disputed))
  = map Europe.NAME (europe world).
Proof.
  rewrite europe_unite_cyprus, map_map. apply map_ext. intro e.
  destruct (Europe.NAME e =? "Cyprus"); reflexivity.
Qed.

(** X13.  When no two rows of the wage table share a country, the plotted frame
    has exactly one row per geometry of [europe], in the order of the
    countries layer: the join neither drops nor repeats nor reorders a
    geometry. *)
Theorem one_row_per_geometry (df : list Db.row)
  (world : Layer.t crs (World.row geom))
  (disputed : Layer.t crs (Disputed.row geom))
  (admin1 : Layer.t crs (Admin1.row geom)) :
  NoDup (map Db.country df) ->
  map Mrg.NAME (df_mrg df world disputed admin1)
  = map Europe.NAME (europe world) /\
  List.length (df_mrg df world disputed admin1) = List.length (europe world).
Proof.
  intro N.
  assert (E : map Mrg.NAME (df_mrg df world disputed admin1)
              = map Europe.NAME (europe world)).
  { unfold df_mrg, drop_islands, move_crimea, ukraine_plus_crimea,
      russia_minus_crimea, df_mrg_merged.
    rewrite !loc_geometry_names, merge_names, europe_names;
      [reflexivity|apply unique_country_drop_oecd, N]. }
  split; [exact E|].
  rewrite <- (length_map Mrg.NAME), E. apply length_map.
Qed.

(** X14.  The two writes of the Crimea step touch different rows, so their order
    does not matter. *)
Theorem crimea_writes_commute (c : geom) (m : list (Mrg.row geom)) :
  ukraine_plus_crimea c (russia_minus_crimea c m)
  = russia_minus_crimea c (ukraine_plus_crimea c m).
Proof.
  unfold ukraine_plus_crimea, russia_minus_crimea, Mrg.loc_geometry.
  rewrite !map_map. apply map_ext. intro r. unfold is_named.
  destruct (Mrg.NAME r =? "Russia") eqn:R;
    destruct (Mrg.NAME r =? "Ukraine") eqn:U; cbn [Mrg.NAME Mrg.geometry
      Mrg.country Mrg.pct_change_2007_2024]; rewrite ?R, ?U; try reflexivity.
  apply String.eqb_eq in R. apply String.eqb_eq in U. congruence.
Qed.

Lemma loc_geometry_none (mask : Mrg.row geom -> bool) (f : geom -> geom)
  (m : list (Mrg.row geom)) :
  (forall r, In r m -> mask r = false) -> Mrg.loc_geometry mask f m = m.
Proof.
  intro H. unfold Mrg.loc_geometry. rewrite <- (map_id m) at 2.
  apply map_ext_in. intros r Hr. now rewrite (H r Hr).
Qed.

(** X15.  A frame without a row named Russia or Ukraine goes through the Crimea
    and island steps unchanged. *)
Theorem no_russia_no_ukraine (c : geom) (m : list (Mrg.row geom)) :
  (forall r, In r m -> Mrg.NAME r <> "Russia" /\ Mrg.NAME r <> "Ukraine") ->
  drop_islands (move_crimea c m) = m.
Proof.
  intro H.
  assert (M : move_crimea c m = m).
  { unfold move_crimea, ukraine_plus_crimea, russia_minus_crimea.
    rewrite (loc_geometry_none (is_named "Russia"));
      [apply loc_geometry_none|];
      intros r Hr; apply is_named_false, (H r Hr). }
  unfold drop_islands. rewrite M. apply loc_geometry_none.
  intros r Hr. apply is_named_false, (H r Hr).
Qed.

(** X16.  A countries layer without a row named Cyprus is left as it is by the
    Cyprus step, whatever the disputed layer holds. *)
Theorem no_cyprus (world : Layer.t crs (World.row geom))
  (disputed : Layer.t crs (Disputed.row geom)) :
  (forall r, In r (Layer.rows world) -> World.NAME r <> "Cyprus") ->
  unite_cyprus world disputed = world.
Proof.
  intro H. unfold unite_cyprus. destruct world as [c rows]. cbn [Layer.crs_of Layer.rows] in *.
  f_equal. rewrite <- (map_id rows) at 2. apply map_ext_in. intros r Hr.
  apply (H r) in Hr. apply String.eqb_neq in Hr. now rewrite Hr.
Qed.

End OneRowPerGeometry.

(* ------------------------------------------------------------------------ *)
(** ** The mask that finds Crimea *)

Section Contains.
Import Map.

Lemma prefix_app (p s : string) :
  String.prefix p s = true <-> exists b, s = p ++ b.
Proof.
  revert s. induction p as [|a p IH]; intro s.
  - destruct s; simpl; split; eauto.
  - destruct s as [|c s]; simpl.
    + split; [discriminate|]. intros (b & [=]).
    + destruct (ascii_dec a c) as [->|N].
      * rewrite IH. split; intros (b & E); exists b; congruence.
      * split; [discriminate|]. intros (b & [= E _]). congruence.
Qed.

Lemma drop_app (v b : string) : drop (String.length v) (v ++ b) = b.
Proof. induction v as [|c v IH]; simpl; [now destruct b|exact IH]. Qed.

Lemma append_assoc (a b c : string) : (a ++ b) ++ c = a ++ b ++ c.
Proof. induction a as [|x a IH]; simpl; [reflexivity|now rewrite IH]. Qed.

Lemma starts_spec (pat s : string) :
  starts pat s = true <-> exists x b, s = x ++ b /\ spells pat x.
Proof.
  revert s. induction pat as [|c pat IH]; intro s; cbn [starts spells].
  - split; [intros _; exists "", s; auto|reflexivity].
  - rewrite existsb_exists. split.
    + intros (v & Hv & H). apply andb_true_iff in H. destruct H as [P H].
      apply prefix_app in P. destruct P as (b & ->).
      rewrite drop_app in H. apply IH in H. destruct H as (x' & b' & -> & H).
      exists (v ++ x'), b'. split; [now rewrite append_assoc|].
      exists v, x'. auto.
    + intros (x & b & -> & v & x' & Hv & -> & H).
      exists v. split; [exact Hv|]. apply andb_true_iff. split.
      * apply prefix_app. exists (x' ++ b). apply append_assoc.
      * rewrite append_assoc, drop_app. apply IH. exists x', b. auto.
Qed.

Lemma search_spec (pat s : string) :
  search pat s = true <-> exists a x b, s = a ++ x ++ b /\ spells pat x.
Proof.
  induction s as [|c s IH]; cbn [search].
  - rewrite orb_false_r, starts_spec. split.
    + intros (x & b & E & H). exists "", x, b. auto.
    + intros (a & x & b & E & H). destruct a as [|y a]; [|discriminate].
      exists x, b. auto.
  - rewrite orb_true_iff, starts_spec, IH. split.
    + intros [(x & b & E & H)|(a & x & b & E & H)].
      * exists "", x, b. auto.
      * exists (String c a), x, b. simpl. rewrite E. auto.
    + intros (a & x & b & E & H). destruct a as [|y a].
      * left. exists x, b. auto.
      * right. injection E as _ E. exists a, x, b. auto.
Qed.

(** X17.  The mask of line 129 is false on a missing name, and true on a
    name exactly when a stretch of the name spells Crimea, each letter in
    either case, the [i] also as U+0130 or U+0131.  So it is true on the
    names that hold "Crımea" or "CRİMEA". *)
Theorem str_contains_nocase_spec :
  str_contains_nocase "Crimea" None = false /\
  (forall s, str_contains_nocase "Crimea" (Some s) = true <->
     exists a x b, s = a ++ x ++ b /\ spells "Crimea" x) /\
  (forall a b, str_contains_nocase "Crimea" (Some (a ++ "Crımea" ++ b)) = true) /\
  (forall a b, str_contains_nocase "Crimea" (Some (a ++ "CRİMEA" ++ b)) = true).
Proof.
  split; [reflexivity|]. split; [intro s; apply search_spec|].
  split; intros a b; apply search_spec.
  - exists a, "Crımea", b. split; [reflexivity|].
    exists "C", "rımea". split; [simpl; auto|]. split; [reflexivity|].
    exists "r", "ımea". split; [simpl; auto|]. split; [reflexivity|].
    exists "ı", "mea". split; [simpl; auto|]. split; [reflexivity|].
    exists "m", "ea". split; [simpl; auto|]. split; [reflexivity|].
    exists "e", "a". split; [simpl; auto|]. split; [reflexivity|].
    exists "a", "". split; [simpl; auto|]. split; reflexivity.
  - exists a, "CRİMEA", b. split; [reflexivity|].
    exists "C", "RİMEA". split; [simpl; auto|]. split; [reflexivity|].
    exists "R", "İMEA". split; [simpl; auto|]. split; [reflexivity|].
    exists "İ", "MEA". split; [simpl; auto|]. split; [reflexivity|].
    exists "M", "EA". split; [simpl; auto|]. split; [reflexivity|].
    exists "E", "A". split; [simpl; auto|]. split; [reflexivity|].
    exists "A", "". split; [simpl; auto|]. split; reflexivity.
Qed.

End Contains.

(* ------------------------------------------------------------------------ *)
(** ** Russia and Ukraine after both steps *)

Section AfterBothSteps.
Import Pandas Shapely Map.
Context {geom point crs : Type} {shapely : Ops geom point crs}.
Context (laws : Laws shapely).

(** The parts of a geometry lie in the geometry. *)
Hypothesis parts_within : forall (g part : geom) (p : point),
  In part (get_parts g) -> covers part p -> covers g p.



End AfterBothSteps.

(* ------------------------------------------------------------------------ *)
(** ** The runs of the line model *)

Section LineParts.
Import Line.



End LineParts.

(* ------------------------------------------------------------------------ *)
(** ** The further facts on the sample *)

(** X4 on the sample. *)
Lemma norm_within_unit_witness :
  exists t,
    Barchart.norm_2007 (Barchart.prepare Sample.wages) (Some 15.2) = Ok (Some t)
    /\ 0 <= t <= 1.
Proof.
  apply (proj1 (norm_within_unit (Barchart.prepare Sample.wages))
           (Db.mkRow "Greece" (Some 15.2) (Some 12.7) (Some (- 16.7))) 15.2).
  - simpl. auto.
  - reflexivity.
Defined.

(** X5 on the sample. *)
Lemma norm_monotone_witness :
  exists t u,
    Barchart.norm_2007 (Barchart.prepare Sample.wages) (Some 8.1) = Ok (Some t) /\
    Barchart.norm_2007 (Barchart.prepare Sample.wages) (Some 15.2) = Ok (Some u) /\
    t <= u.
Proof.
  apply (proj1 (norm_monotone (Barchart.prepare Sample.wages))
           (Db.mkRow "Latvia" (Some 8.1) (Some 14) (Some 72.4))
           (Db.mkRow "Greece" (Some 15.2) (Some 12.7) (Some (- 16.7))) 8.1 15.2).
  - simpl. auto.
  - simpl. auto.
  - reflexivity.
  - reflexivity.
  - discriminate.
Defined.

(** X6 on the sample. *)
Lemma printed_wage_near_witness :
  exists t q,
    nth_error (Barchart.bar_texts "left"
                 [Barchart.mkBar "Latvia" (Some 8.1) tt;
                  Barchart.mkBar "Greece" (Some 15.25) tt]) 1 = Some t /\
    Barchart.text_s t = "15.2" /\
    Barchart.decimal_value (Barchart.text_s t) = Some q /\
    - (1 # 20) <= q - 15.25 <= 1 # 20.
Proof.
  destruct (printed_wage_near "left"
              [Barchart.mkBar "Latvia" (Some 8.1) tt;
               Barchart.mkBar "Greece" (Some 15.25) tt]
              1%nat (Barchart.mkBar "Greece" (Some 15.25) tt) 15.25
              eq_refl eq_refl)
    as (_ & t & q & Ht & S & V & B & _).
  exists t, q. split; [exact Ht|]. split; [rewrite S; reflexivity|].
  split; [exact V|exact B].
Defined.

(** X7 on the sample. *)
Lemma bar_texts_placed_witness :
  exists t,
    nth_error (Barchart.bar_texts "left"
                 [Barchart.mkBar "Latvia" (Some 8.1) tt;
                  Barchart.mkBar "Greece" (Some 15.25) tt]) 1 = Some t /\
    Barchart.text_s t = "15.2" /\ Barchart.text_y t == 1.
Proof.
  assert (N : NoDup (map Barchart.bar_y
                       [Barchart.mkBar "Latvia" (Some 8.1) tt;
                        Barchart.mkBar "Greece" (Some 15.25) tt])).
  { repeat constructor; simpl; intuition discriminate. }
  destruct (bar_texts_placed "left" _ N) as [_ H].
  destruct (H 1%nat (Barchart.mkBar "Greece" (Some 15.25) tt) eq_refl)
    as (t & Ht & S & _ & Y & _).
  exists t. split; [exact Ht|]. split; [rewrite S; reflexivity|exact Y].
Defined.

(** X8 on the sample. *)
Lemma change_bins_monotone_witness :
  exists lv lw i j,
    Map.change_bins (Some 5) = Some lv /\ Map.change_bins (Some 25) = Some lw /\
    Map.code lv Map.categories = Some i /\ Map.code lw Map.categories = Some j /\
    (i <= j)%nat.
Proof.
  apply (change_bins_monotone 5 25). discriminate.
Defined.

(** X9 on the sample. *)
Lemma every_row_is_drawn_witness :
  exists p, Map.draw (Map.change_bins (Some (- 3))) = Some p /\
            Map.facecolor p = Map.Named "darksalmon".
Proof.
  destruct (every_row_is_drawn (Some (- 3))) as (p & D & _ & H).
  exists p. split; [exact D|].
  destruct (H (- 3) eq_refl) as (_ & N & _). apply N. discriminate.
Defined.

(** X11 on the sample. *)
Lemma df_only_witness :
  In "Atlantis"
     (Map.df_only (Map.drop_oecd Sample.wages)
        (Map.europe (Map.unite_cyprus Sample.world Sample.disputed))) <->
  forall r, In r (Map.df_mrg Sample.wages Sample.world Sample.disputed
                             Sample.admin1) ->
            Mrg.country r <> Some "Atlantis".
Proof.
  apply (df_only_is_what_the_map_loses Sample.wages Sample.world
           Sample.disputed Sample.admin1
           (Db.mkRow "Atlantis" (Some 1) (Some 2) (Some 100))).
  simpl. auto 10.
Defined.

(** X12 on the sample. *)
Lemma oecd_never_on_map_witness :
  Mrg.country (Mrg.mk None None "Norway" [70; 71; 72]%Z) <> Some "OECD".
Proof.
  apply (oecd_never_on_map Sample.wages Sample.world Sample.disputed
           Sample.admin1).
  vm_compute. auto 10.
Defined.

(** X13 on the sample. *)
Lemma one_row_per_geometry_witness :
  map Mrg.NAME (Map.df_mrg Sample.wages Sample.world Sample.disputed
                           Sample.admin1)
  = ["Cyprus"; "Greece"; "Russia"; "Ukraine"; "Norway"].
Proof.
  assert (N : NoDup (map Db.country Sample.wages)).
  { repeat constructor; simpl; intuition discriminate. }
  rewrite (proj1 (one_row_per_geometry Sample.wages Sample.world
                    Sample.disputed Sample.admin1 N)).
  reflexivity.
Defined.

(** X15 on the sample. *)
Lemma no_russia_no_ukraine_witness :
  Map.drop_islands
    (Map.move_crimea [50; 51]%Z [Mrg.mk None None "Norway" [70; 71; 72]%Z])
  = [Mrg.mk None None "Norway" [70; 71; 72]%Z].
Proof.
  apply no_russia_no_ukraine.
  intros r [<-|[]]. split; discriminate.
Defined.

(** X16 on the sample. *)
Lemma no_cyprus_witness :
  Map.unite_cyprus (Layer.mk tt [World.mk "Greece" "Europe" [10; 11]%Z])
                   Sample.disputed
  = Layer.mk tt [World.mk "Greece" "Europe" [10; 11]%Z].
Proof.
  apply no_cyprus. intros r [<-|[]]. discriminate.
Defined.

